(** * The pendulum state-space model of rsbook_code/control/examples/pendulum.py

    A shallow embedding of the [Pendulum] class and the properties of its
    forward and inverse dynamics, its state derivative, its Euler simulator
    and its wrap-around state addition.

    Numbers.  Python's floats are read as real numbers: every arithmetic
    operation is exact, [math.cos] is the real cosine and [math.pi] is the
    real [PI].  Rounding, infinities and NaN are outside this model.  What
    Python raises on exact inputs (division by zero, a failed [assert], a
    shape mismatch, an index out of range) is kept, as a [result].

    Two parts of [simulate] that only compare and add floats, its clock and
    its clamp, are modelled a second time on IEEE 754 doubles (module
    [Binary64]), where NaN and the infinities exist. *)

From Stdlib Require Import ZArith Reals Lra List Lia PeanoNat.
From Stdlib Require Import Floats.
Import ListNotations.
Open Scope R_scope.

(** ** Python and numpy primitives used by the class *)

Module Py.

(** The exceptions the code can raise on its own, and [PolicyError] for
    whatever a caller-supplied callback raises. *)
Inductive exn : Type :=
| AssertionError
| ZeroDivisionError
| ValueError
| IndexError
| PolicyError (tag : nat).

Inductive result (A : Type) : Type :=
| Ok (a : A)
| Raise (e : exn).
Arguments Ok {A} a.
Arguments Raise {A} e.

Definition bind {A B : Type} (c : result A) (k : A -> result B) : result B :=
  match c with
  | Ok a => k a
  | Raise e => Raise e
  end.

(** [assert cond] *)
Definition py_assert (cond : bool) : result unit :=
  if cond then Ok tt else Raise AssertionError.

(** [a / b] on floats: a zero divisor raises. *)
Definition py_div (a b : R) : result R :=
  if Req_dec_T b 0 then Raise ZeroDivisionError else Ok (a / b).

(** [a % b] on floats for a divisor [b <> 0]: the remainder of the floored
    quotient, so that it takes the sign of [b].  The class only ever
    divides by the constant [math.pi*2]. *)
Definition py_mod (a b : R) : R := a - b * IZR (Int_part (a / b)).

(** [max(a, b)] and [min(a, b)]: the first argument is kept unless the
    second is strictly larger (smaller). *)
Definition py_max (a b : R) : R := if Rlt_dec a b then b else a.
Definition py_min (a b : R) : R := if Rlt_dec b a then b else a.

(** [xs[i]] for a non-negative index. *)
Definition getitem (xs : list R) (i : nat) : result R :=
  match nth_error xs i with
  | Some v => Ok v
  | None => Raise IndexError
  end.

(** [xs[i] = v] on a numpy array, for a non-negative index. *)
Fixpoint setitem (xs : list R) (i : nat) (v : R) : result (list R) :=
  match xs, i with
  | [], _ => Raise IndexError
  | _ :: tl, O => Ok (v :: tl)
  | hd :: tl, S j => bind (setitem tl j v) (fun tl' => Ok (hd :: tl'))
  end.

Fixpoint zip_add (a b : list R) : list R :=
  match a, b with
  | x :: a', y :: b' => (x + y) :: zip_add a' b'
  | _, _ => []
  end.

(** [a + b] on one-dimensional numpy arrays: elementwise on equal
    shapes, a one-element array is broadcast, any other pair of shapes
    raises. *)
Definition np_add (a b : list R) : result (list R) :=
  if Nat.eqb (length a) (length b) then Ok (zip_add a b)
  else match a, b with
       | [x], _ => Ok (map (fun y => x + y) b)
       | _, [y] => Ok (map (fun x => x + y) a)
       | _, _ => Raise ValueError
       end.

End Py.

Import Py.

Declare Scope py_scope.
Delimit Scope py_scope with py.
Notation "x <- c ;; k" := (bind c (fun x => k))
  (at level 61, c at next level, right associativity) : py_scope.
Notation "' pat <- c ;; k" := (bind c (fun v => match v with pat => k end))
  (at level 61, pat pattern, c at next level, right associativity) : py_scope.
Open Scope py_scope.

(** ** The class *)

Module Pendulum.

(** The attributes set by [__init__].  [viscosity], [umin] and [umax]
    start as [None] and are assigned from outside. *)
Record t : Type := Build {
  m : R;
  L : R;
  g : R;
  viscosity : option R;
  umin : option R;
  umax : option R
}.

(** [Pendulum(m, L, g)] *)
Definition init (m L g : R) : t := Build m L g None None None.

(** [Pendulum()]: m=1., L=1., g=9.8 *)
Definition default : t := init 1 1 (98 / 10).

Definition stateDimension (self : t) : nat := 2.
Definition controlDimension (self : t) : nat := 1.

(** [math.pi*2] *)
Definition two_pi : R := PI * 2.

(** [dynamics(self,theta,dtheta,u)] *)
Definition dynamics (self : t) (theta dtheta u : R) : result R :=
  let c := cos theta in
  let s := sin theta in
  let m := m self in
  let L := L self in
  let visc := 0 in
  let visc := match viscosity self with
              | Some k => - k * dtheta
              | None => visc
              end in
  ddtheta <- py_div (u + visc - m * c * g self) (L * m) ;;
  Ok ddtheta.

(** [inverse_dynamics(self,theta,dtheta,ddtheta)] *)
Definition inverse_dynamics (self : t) (theta dtheta ddtheta : R) : R :=
  let c := cos theta in
  let s := sin theta in
  let m := m self in
  let visc := 0 in
  let visc := match viscosity self with
              | Some k => - k * dtheta
              | None => visc
              end in
  let u := L self * m * (ddtheta - visc + m * c * g self) in
  u.

(** The control argument of [derivative]: an [int] or [float], or a
    sequence (list, tuple or array), which has [__iter__]. *)
Inductive control : Type :=
| Scalar (u : R)
| Sequence (us : list R).

(** [derivative(self,x,u)], for a sequence [x]; the result is the array
    [np.array([dq,ddq])]. *)
Definition derivative (self : t) (x : list R) (u : control) : result (list R) :=
  _ <- py_assert (Nat.eqb (length x) 2) ;;
  _ <- py_assert (match u with
                  | Scalar _ => true
                  | Sequence us => Nat.eqb (length us) 1
                  end) ;;
  q <- getitem x 0 ;;
  dq <- getitem x 1 ;;
  u <- match u with
       | Sequence us => getitem us 0
       | Scalar u => Ok u
       end ;;
  ddq <- dynamics self q dq u ;;
  Ok [dq; ddq].

(** [integrate(self,x,dx)] on numpy arrays; [x+dx] is a fresh array, so
    the item assignment does not touch [x]. *)
Definition integrate (self : t) (x dx : list R) : result (list R) :=
  xnext <- np_add x dx ;;
  x0 <- getitem xnext 0 ;;
  xnext <- setitem xnext 0 (py_mod x0 two_pi) ;;
  Ok xnext.

(** *** [simulate] *)

(** The dictionary [res] built by [simulate]: one list per key. *)
Record trace : Type := Trace {
  tr_t : list R;
  tr_x : list (list R);
  tr_q : list R;
  tr_dq : list R;
  tr_u : list R;
  tr_ddq : list R
}.

(** [dict((idx,[]) for idx in ['t','x','q','dq','u','ddq'])] *)
Definition empty_trace : trace := Trace [] [] [] [] [] [].

(** [res[key].append(v)], key by key. *)
Definition append_t (v : R) (r : trace) : trace :=
  Trace (tr_t r ++ [v]) (tr_x r) (tr_q r) (tr_dq r) (tr_u r) (tr_ddq r).
Definition append_x (v : list R) (r : trace) : trace :=
  Trace (tr_t r) (tr_x r ++ [v]) (tr_q r) (tr_dq r) (tr_u r) (tr_ddq r).
Definition append_q (v : R) (r : trace) : trace :=
  Trace (tr_t r) (tr_x r) (tr_q r ++ [v]) (tr_dq r) (tr_u r) (tr_ddq r).
Definition append_dq (v : R) (r : trace) : trace :=
  Trace (tr_t r) (tr_x r) (tr_q r) (tr_dq r ++ [v]) (tr_u r) (tr_ddq r).
Definition append_u (v : R) (r : trace) : trace :=
  Trace (tr_t r) (tr_x r) (tr_q r) (tr_dq r) (tr_u r ++ [v]) (tr_ddq r).
Definition append_ddq (v : R) (r : trace) : trace :=
  Trace (tr_t r) (tr_x r) (tr_q r) (tr_dq r) (tr_u r) (tr_ddq r ++ [v]).

(** The local variables of [simulate] that live across iterations,
    together with the state [pol] the policy callback may be closed
    over. *)
Record frame (Pol : Type) : Type := Frame {
  f_t : R;
  f_q : R;
  f_dq : R;
  f_res : trace;
  f_pol : Pol
}.
Arguments Frame {Pol} _ _ _ _ _.
Arguments f_t {Pol} _.
Arguments f_q {Pol} _.
Arguments f_dq {Pol} _.
Arguments f_res {Pol} _.
Arguments f_pol {Pol} _.

(** A control policy [u(t,q,dq)]: it may read and change state of its
    own, and it may raise. *)
Definition policy (Pol : Type) : Type := Pol -> R -> R -> R -> result (R * Pol).

(** A policy that is a pure function of its arguments. *)
Definition pure_policy (f : R -> R -> R -> R) : policy unit :=
  fun pol t q dq => Ok (f t q dq, pol).

Section Loop.
Context {Pol : Type}.
Variable self : t.
Variable ufunc : policy Pol.
Variables dt T : R.

(** The body of [while t < T]. *)
Definition body (st : frame Pol) : result (frame Pol) :=
  let t := f_t st in
  let q := f_q st in
  let dq := f_dq st in
  let res := f_res st in
  '(u, pol) <- ufunc (f_pol st) t q dq ;;
  let u := match umin self with
           | Some lo => py_max u lo
           | None => u
           end in
  let u := match umax self with
           | Some hi => py_min u hi
           | None => u
           end in
  ddq <- dynamics self q dq u ;;
  let res := append_t t res in
  let res := append_q q res in
  let res := append_dq dq res in
  let res := append_ddq ddq res in
  let res := append_x [q; dq] res in
  let res := append_u u res in
  let q := q + dt * dq in
  let dq := dq + dt * ddq in
  let q := py_mod q two_pi in
  let t := t + dt in
  Ok (Frame t q dq res pol).

(** The loop, cut after [fuel] iterations: [None] when the guard still
    holds then, [Some (Raise e)] when an iteration raised, and
    [Some (Ok st)] with the frame at loop exit. *)
Fixpoint loop (fuel : nat) (st : frame Pol) : option (result (frame Pol)) :=
  if Rlt_dec (f_t st) T then
    match fuel with
    | O => None
    | S fuel' =>
        match body st with
        | Ok st' => loop fuel' st'
        | Raise e => Some (Raise e)
        end
    end
  else Some (Ok st).

End Loop.

(** [simulate(self,q0,dq0,ufunc,dt,T)]; [pol0] is the policy's state
    at the call and [fuel] bounds the number of iterations. *)
Definition simulate {Pol : Type} (self : t) (q0 dq0 : R)
    (ufunc : policy Pol) (pol0 : Pol) (dt T : R) (fuel : nat)
  : option (result trace) :=
  let q := q0 in
  let dq := dq0 in
  let res := empty_trace in
  let t := 0 in
  match loop self ufunc dt T fuel (Frame t q dq res pol0) with
  | Some (Ok st) => Some (Ok (f_res st))
  | Some (Raise e) => Some (Raise e)
  | None => None
  end.

End Pendulum.

Import Pendulum.

(** ** The laws as the specification words them *)

Module Spec.

(** The viscous torque term: [- viscosity * dtheta] when a viscosity is
    set, zero otherwise. *)
Definition visc (self : Pendulum.t) (dtheta : R) : R :=
  match viscosity self with
  | Some k => - k * dtheta
  | None => 0
  end.

(** Forward law: (u + visc - m c g) / (L m). *)
Definition forward (self : Pendulum.t) (theta dtheta u : R) : R :=
  (u + visc self dtheta - m self * cos theta * g self) / (L self * m self).

(** Inverse law: L m (ddtheta - visc + m c g). *)
Definition inverse (self : Pendulum.t) (theta dtheta ddtheta : R) : R :=
  L self * m self * (ddtheta - visc self dtheta + m self * cos theta * g self).

(** An angle in [0, 2 pi). *)
Definition wrapped (q : R) : Prop := 0 <= q < 2 * PI.

(** [q'] is [q] reduced modulo 2 pi. *)
Definition reduced (q q' : R) : Prop :=
  wrapped q' /\ exists k : Z, q = q' + IZR k * (2 * PI).

(** A control within the bounds that are set. *)
Definition above_umin (self : Pendulum.t) (u : R) : Prop :=
  match umin self with
  | Some lo => lo <= u
  | None => True
  end.
Definition below_umax (self : Pendulum.t) (u : R) : Prop :=
  match umax self with
  | Some hi => u <= hi
  | None => True
  end.


(** The torque after clamping by the bounds that are set. *)
Definition clamp (self : Pendulum.t) (u : R) : R :=
  let u := match umin self with
           | Some lo => Rmax u lo
           | None => u
           end in
  match umax self with
  | Some hi => Rmin u hi
  | None => u
  end.

(** One recorded sample (t, q, dq, ddq, x=(q,dq), u) added at the end of
    a trace. *)
Definition record_sample (t q dq ddq u : R) (r : trace) : trace :=
  Trace (tr_t r ++ [t]) (tr_x r ++ [[q; dq]]) (tr_q r ++ [q])
        (tr_dq r ++ [dq]) (tr_u r ++ [u]) (tr_ddq r ++ [ddq]).

(** The frame after one explicit Euler step from [st], when the policy
    answered [u] and left its state as [pol'] and the acceleration of the
    clamped torque is [ddq]. *)
Definition euler_step {Pol : Type} (self : Pendulum.t) (dt : R)
    (st : frame Pol) (u ddq : R) (pol' : Pol) : frame Pol :=
  Frame (f_t st + dt)
        (py_mod (f_q st + dt * f_dq st) (PI * 2))
        (f_dq st + dt * ddq)
        (record_sample (f_t st) (f_q st) (f_dq st) ddq (clamp self u) (f_res st))
        pol'.

(** The input contract of [derivative] on the control: a scalar or a
    one-element sequence; [unwraps u v] when [v] is the scalar it stands
    for. *)
Definition control_shape (u : control) : Prop :=
  match u with
  | Scalar _ => True
  | Sequence us => length us = 1%nat
  end.

Definition unwraps (u : control) (v : R) : Prop :=
  u = Scalar v \/ u = Sequence [v].

(** Traces as sequences of samples: concatenation key by key, and the
    traces that hold [n] samples. *)
Definition trace_app (r s : trace) : trace :=
  Trace (tr_t r ++ tr_t s) (tr_x r ++ tr_x s) (tr_q r ++ tr_q s)
        (tr_dq r ++ tr_dq s) (tr_u r ++ tr_u s) (tr_ddq r ++ tr_ddq s).

Definition samples (n : nat) (r : trace) : Prop :=
  length (tr_t r) = n /\ length (tr_x r) = n /\ length (tr_q r) = n /\
  length (tr_dq r) = n /\ length (tr_u r) = n /\ length (tr_ddq r) = n.

(** A policy that answers every query. *)
Definition answers {Pol : Type} (ufunc : policy Pol) : Prop :=
  forall pol t q dq, exists u pol', ufunc pol t q dq = Ok (u, pol').

End Spec.

(** ** The clock and the clamp of [simulate] in binary64

    Two parts of the loop use nothing but float comparison and addition,
    and are modelled here on IEEE 754 doubles as Python has them: the clock
    [t], on which the number of samples depends, and the clamp of the
    torque, which involves NaN. *)

Module Binary64.

Fixpoint clock (fuel : nat) (t dt T : PrimFloat.float) : option nat :=
  if PrimFloat.ltb t T then
    match fuel with
    | O => None
    | S fuel' => option_map S (clock fuel' (PrimFloat.add t dt) dt T)
    end
  else Some O.

(** [max(a, b)] and [min(a, b)] on floats: the second argument is taken
    only when the comparison [b > a] ([b < a]) holds, which it never does
    for a NaN. *)
Definition py_max (a b : float) : float := if PrimFloat.ltb a b then b else a.
Definition py_min (a b : float) : float := if PrimFloat.ltb b a then b else a.

(** The clamp of the loop body, for the attributes [umin] and [umax]. *)
Definition clamp (umin umax : option float) (u : float) : float :=
  let u := match umin with
           | Some lo => py_max u lo
           | None => u
           end in
  let u := match umax with
           | Some hi => py_min u hi
           | None => u
           end in
  u.




End Binary64.

(** ** Traces read sample by sample *)

Module Rows.

(** [P] holds of every sample of the trace: of the entries the six lists
    hold at one index. *)
Definition every_sample
    (P : nat -> R -> R -> R -> R -> R -> list R -> Prop) (r : trace) : Prop :=
  forall i t q dq ddq u x,
    nth_error (tr_t r) i = Some t ->
    nth_error (tr_q r) i = Some q ->
    nth_error (tr_dq r) i = Some dq ->
    nth_error (tr_ddq r) i = Some ddq ->
    nth_error (tr_u r) i = Some u ->
    nth_error (tr_x r) i = Some x ->
    P i t q dq ddq u x.

(** Each entry of [qs] and [dqs] that has a successor is followed by its
    explicit Euler update. *)
Definition euler_chain (dt : R) (qs dqs ddqs : list R) : Prop :=
  forall i q dq ddq,
    nth_error qs i = Some q ->
    nth_error dqs i = Some dq ->
    nth_error ddqs i = Some ddq ->
    (forall q', nth_error qs (S i) = Some q' ->
                q' = py_mod (q + dt * dq) (PI * 2))
    /\ (forall dq', nth_error dqs (S i) = Some dq' -> dq' = dq + dt * ddq).

(** What the loop has recorded in a sample: the time of the [i]-th
    iteration, below the horizon; the state as a pair; the acceleration
    [dynamics] returned for the recorded control; and a control that is the
    clamped answer of the policy to the recorded time and state. *)
Definition recorded {Pol : Type} (self : Pendulum.t) (ufunc : policy Pol)
    (dt T : R) (i : nat) (t q dq ddq u : R) (x : list R) : Prop :=
  t = INR i * dt
  /\ t < T
  /\ x = [q; dq]
  /\ dynamics self q dq u = Ok ddq
  /\ exists pol u0 pol', ufunc pol t q dq = Ok (u0, pol')
                         /\ u = Spec.clamp self u0.

(** The invariant of the loop of [simulate] started from [(q0, dq0)]. *)
Definition run_invariant {Pol : Type} (self : Pendulum.t) (q0 dq0 : R)
    (ufunc : policy Pol) (dt T : R) (st : frame Pol) : Prop :=
  exists n : nat,
    Spec.samples n (f_res st)
    /\ f_t st = INR n * dt
    /\ every_sample (recorded self ufunc dt T) (f_res st)
    /\ euler_chain dt (tr_q (f_res st) ++ [f_q st])
                      (tr_dq (f_res st) ++ [f_dq st]) (tr_ddq (f_res st))
    /\ nth_error (tr_q (f_res st) ++ [f_q st]) 0 = Some q0
    /\ nth_error (tr_dq (f_res st) ++ [f_dq st]) 0 = Some dq0.

End Rows.

(** ** Runs used as examples *)

Module Demo.

(** [lambda t,q,dq: 0] *)
Definition zero : policy unit := pure_policy (fun _ _ _ => 0).

(** [lambda t,q,dq: 5] *)
Definition five : policy unit := pure_policy (fun _ _ _ => 5).

(** A policy that raises at every query. *)
Definition failing : policy unit := fun _ _ _ _ => Raise (PolicyError 7).

(** A pendulum whose bounds are crossed: [umin = 1], [umax = -1]. *)
Definition crossed : Pendulum.t := Build 1 1 (98 / 10) None (Some 1) (Some (-1)).

(** A pendulum without mass. *)
Definition massless : Pendulum.t := init 0 1 (98 / 10).

(** The one-sample trace of a model started at rest at angle 0 under the
    constant torque [c]. *)
Definition one_sample (self : Pendulum.t) (c : R) : trace :=
  Spec.record_sample 0 0 0 (Spec.forward self 0 0 (Spec.clamp self c))
    (Spec.clamp self c) empty_trace.


(** The two-sample trace of a model started at [(q0, dq0)] under the
    constant torque [c] with step [dt]. *)
Definition two_samples (self : Pendulum.t) (q0 dq0 c dt : R) : trace :=
  let u := Spec.clamp self c in
  let ddq0 := Spec.forward self q0 dq0 u in
  let q1 := py_mod (q0 + dt * dq0) (PI * 2) in
  let dq1 := dq0 + dt * ddq0 in
  Spec.record_sample (0 + dt) q1 dq1 (Spec.forward self q1 dq1 u) u
    (Spec.record_sample 0 q0 dq0 ddq0 u empty_trace).

End Demo.

(** ** Arithmetic primitives *)

Section Primitives.

Lemma py_div_nonzero (a b : R) : b <> 0 -> py_div a b = Ok (a / b).
Proof.
  intros Hb. unfold py_div. destruct (Req_dec_T b 0) as [E | _]; [contradiction | reflexivity].
Qed.

Lemma py_div_zero (a : R) : py_div a 0 = Raise ZeroDivisionError.
Proof.
  unfold py_div. destruct (Req_dec_T 0 0) as [_ | N]; [reflexivity | now elim N].
Qed.

Lemma py_mod_range (a b : R) : 0 < b -> 0 <= py_mod a b < b.
Proof.
  intros Hb. unfold py_mod.
  destruct (base_Int_part (a / b)) as [Hle Hgt].
  set (k := IZR (Int_part (a / b))) in *.
  assert (Ha : a = b * (a / b)) by (field; lra).
  assert (H1 : b * k <= b * (a / b)) by (apply Rmult_le_compat_l; lra).
  assert (H2 : b * (a / b - 1) < b * k) by (apply Rmult_lt_compat_l; lra).
  rewrite Rmult_minus_distr_l in H2.
  rewrite <- Ha in H1, H2. lra.
Qed.

Lemma py_mod_congruent (a b : R) : exists k : Z, a = py_mod a b + IZR k * b.
Proof. exists (Int_part (a / b)). unfold py_mod. ring. Qed.

Lemma py_mod_fixes (a b : R) : 0 <= a < b -> py_mod a b = a.
Proof.
  intros [H0 Hb]. unfold py_mod.
  assert (Hk : Int_part (a / b) = 0%Z).
  { symmetry. apply Int_part_spec. simpl.
    assert (0 <= a / b < 1); [| lra].
    split.
    - apply Rmult_le_pos; [lra | left; apply Rinv_0_lt_compat; lra].
    - apply (Rmult_lt_reg_r b); [lra |]. unfold Rdiv.
      rewrite Rmult_assoc, Rinv_l by lra. lra. }
  rewrite Hk. simpl. ring.
Qed.

Lemma py_max_Rmax (a b : R) : py_max a b = Rmax a b.
Proof.
  unfold py_max, Rmax. destruct (Rlt_dec a b), (Rle_dec a b); lra.
Qed.

Lemma py_min_Rmin (a b : R) : py_min a b = Rmin a b.
Proof.
  unfold py_min, Rmin. destruct (Rlt_dec b a), (Rle_dec a b); lra.
Qed.

Lemma nat_above (r : R) : exists n : nat, r < INR n.
Proof.
  destruct (archimed r) as [Hup _].
  destruct (Z_lt_le_dec (up r) 0) as [Hneg | Hpos].
  - exists O. simpl. apply IZR_lt in Hneg. lra.
  - exists (Z.to_nat (up r)). rewrite INR_IZR_INZ, Z2Nat.id by exact Hpos. lra.
Qed.

Lemma two_pi_pos : 0 < two_pi.
Proof. unfold two_pi. pose proof PI_RGT_0. lra. Qed.

Lemma wrap_wrapped (q : R) : Spec.wrapped (py_mod q two_pi).
Proof.
  unfold Spec.wrapped. pose proof (py_mod_range q two_pi two_pi_pos) as H.
  unfold two_pi in *. lra.
Qed.

Lemma wrap_reduced (q : R) : Spec.reduced q (py_mod q two_pi).
Proof.
  split; [apply wrap_wrapped |].
  destruct (py_mod_congruent q two_pi) as [k Hk]. exists k.
  unfold two_pi in *. lra.
Qed.

End Primitives.

(** ** Forward and inverse dynamics *)

Section Dynamics.

Variable self : Pendulum.t.

Lemma dynamics_unfold (theta dtheta u : R) :
  dynamics self theta dtheta u =
  py_div (u + Spec.visc self dtheta - m self * cos theta * g self)
         (L self * m self).
Proof.
  unfold dynamics, Spec.visc.
  destruct (py_div _ _); reflexivity.
Qed.

Lemma dynamics_zero_mass_length (theta dtheta u : R) :
  L self * m self = 0 ->
  dynamics self theta dtheta u = Raise ZeroDivisionError.
Proof.
  intros E. rewrite dynamics_unfold, E. apply py_div_zero.
Qed.

Lemma dynamics_nonzero (theta dtheta u : R) :
  L self * m self <> 0 ->
  dynamics self theta dtheta u = Ok (Spec.forward self theta dtheta u).
Proof.
  intros Hnz. rewrite dynamics_unfold. now apply py_div_nonzero.
Qed.

Lemma inverse_dynamics_unfold (theta dtheta ddtheta : R) :
  inverse_dynamics self theta dtheta ddtheta =
  Spec.inverse self theta dtheta ddtheta.
Proof.
  unfold inverse_dynamics, Spec.inverse, Spec.visc.
  destruct (viscosity self); reflexivity.
Qed.

(** C4: when [L * m <> 0], [dynamics] returns, without raising, the value
    (u + visc - m cos(theta) g) / (L m), where visc is [- viscosity *
    dtheta] if a viscosity is set and 0 otherwise. *)
Theorem dynamics_forward_law (theta dtheta u : R) :
  L self * m self <> 0 ->
  exists visc : R,
    match viscosity self with
    | Some k => visc = - k * dtheta
    | None => visc = 0
    end
    /\ dynamics self theta dtheta u
       = Ok ((u + visc - m self * cos theta * g self) / (L self * m self)).
Proof.
  intros Hnz. exists (Spec.visc self dtheta). split.
  - unfold Spec.visc. destruct (viscosity self); reflexivity.
  - now apply dynamics_nonzero.
Qed.

(** C5: [inverse_dynamics] is the total function
    L m (ddtheta - visc + m cos(theta) g), with visc as in [dynamics]. *)
Theorem inverse_dynamics_law (theta dtheta ddtheta : R) :
  exists visc : R,
    match viscosity self with
    | Some k => visc = - k * dtheta
    | None => visc = 0
    end
    /\ inverse_dynamics self theta dtheta ddtheta
       = L self * m self * (ddtheta - visc + m self * cos theta * g self).
Proof.
  exists (Spec.visc self dtheta). split.
  - unfold Spec.visc. destruct (viscosity self); reflexivity.
  - apply inverse_dynamics_unfold.
Qed.

(** What [inverse_dynamics] gives back after [dynamics]: the torque plus
    a residual that vanishes when [L * m = 1]. *)
Lemma roundtrip_residual (theta dtheta u ddtheta : R) :
  dynamics self theta dtheta u = Ok ddtheta ->
  inverse_dynamics self theta dtheta ddtheta =
  u + (1 - L self * m self)
      * (Spec.visc self dtheta - m self * cos theta * g self).
Proof.
  rewrite dynamics_unfold. unfold py_div.
  destruct (Req_dec_T (L self * m self) 0) as [E | Hnz]; [discriminate |].
  intros [= <-]. rewrite inverse_dynamics_unfold. unfold Spec.inverse.
  field. split; intros E; apply Hnz; rewrite E; ring.
Qed.

Lemma roundtrip_unit_inertia (theta dtheta u ddtheta : R) :
  L self * m self = 1 ->
  dynamics self theta dtheta u = Ok ddtheta ->
  inverse_dynamics self theta dtheta ddtheta = u.
Proof.
  intros E H. rewrite (roundtrip_residual _ _ _ _ H), E. ring.
Qed.

End Dynamics.

Lemma dynamics_forward_law_witness :
  L default * m default <> 0 /\
  exists visc : R,
    visc = 0 /\
    dynamics default 0 0 0
    = Ok ((0 + visc - m default * cos 0 * g default) / (L default * m default)).
Proof.
  assert (H : L default * m default <> 0) by (simpl; lra).
  split; [exact H | exact (dynamics_forward_law default 0 0 0 H)].
Defined.

Example dynamics_default_origin (dtheta : R) :
  dynamics default 0 dtheta 0 = Ok (-98 / 10).
Proof.
  rewrite dynamics_nonzero by (simpl; lra).
  unfold Spec.forward, Spec.visc. simpl. rewrite cos_0. f_equal. field.
Qed.

(** C1: the round trip fails for the model m=2, L=1, g=9.8 (no viscosity)
    at theta = theta' = 0 and u = 0: [dynamics] gives -9.8 and
    [inverse_dynamics] maps that back to 19.6, not to the torque 0. *)
Theorem inverse_dynamics_not_inverse :
  dynamics (init 2 1 (98 / 10)) 0 0 0 = Ok (-98 / 10) /\
  inverse_dynamics (init 2 1 (98 / 10)) 0 0 (-98 / 10) = 196 / 10 /\
  196 / 10 <> 0.
Proof.
  split; [| split].
  - rewrite dynamics_nonzero by (simpl; lra).
    unfold Spec.forward, Spec.visc. simpl. rewrite cos_0. f_equal. field.
  - rewrite inverse_dynamics_unfold. unfold Spec.inverse, Spec.visc. simpl.
    rewrite cos_0. field.
  - lra.
Qed.

(** ** The state derivative *)

Section Derivative.

Variable self : Pendulum.t.

Lemma unwraps_shape (u : control) (v : R) :
  Spec.unwraps u v -> Spec.control_shape u.
Proof. intros [-> | ->]; simpl; auto. Qed.

Lemma shape_unwraps (u : control) :
  Spec.control_shape u -> exists v, Spec.unwraps u v.
Proof.
  destruct u as [v | [| v [| w us]]]; simpl; intros H; try discriminate.
  - exists v. now left.
  - exists v. now right.
Qed.

Lemma two_elements (x : list R) :
  length x = 2%nat -> x = [nth 0 x 0; nth 1 x 0].
Proof.
  destruct x as [| a [| b [| c x]]]; simpl; intros H; try discriminate.
  reflexivity.
Qed.

Lemma derivative_pair (q dq v : R) (u : control) :
  Spec.unwraps u v ->
  derivative self [q; dq] u = (ddq <- dynamics self q dq v ;; Ok [dq; ddq]).
Proof. intros [-> | ->]; reflexivity. Qed.

Lemma derivative_bad_state (x : list R) (u : control) :
  length x <> 2%nat -> derivative self x u = Raise AssertionError.
Proof.
  intros H. unfold derivative.
  destruct (Nat.eqb_spec (length x) 2) as [E | _]; [contradiction | reflexivity].
Qed.

Lemma derivative_bad_control (x : list R) (u : control) :
  length x = 2%nat -> ~ Spec.control_shape u ->
  derivative self x u = Raise AssertionError.
Proof.
  intros Hx Hu. unfold derivative. rewrite Hx. simpl.
  destruct u as [v | us]; simpl in *; [now elim Hu |].
  destruct (Nat.eqb_spec (length us) 1) as [E | _]; [contradiction | reflexivity].
Qed.

Lemma dynamics_never_asserts (theta dtheta u : R) (e : exn) :
  dynamics self theta dtheta u = Raise e ->
  e = ZeroDivisionError /\ L self * m self = 0.
Proof.
  rewrite dynamics_unfold. unfold py_div.
  destruct (Req_dec_T (L self * m self) 0) as [E | _]; [| discriminate].
  intros [= <-]. auto.
Qed.

Lemma derivative_contract_failure (x : list R) (u : control) (e : exn) :
  length x = 2%nat -> Spec.control_shape u ->
  derivative self x u = Raise e ->
  e = ZeroDivisionError /\ L self * m self = 0.
Proof.
  intros Hx Hu. rewrite (two_elements x Hx).
  destruct (shape_unwraps u Hu) as [v Hv].
  rewrite (derivative_pair _ _ v u Hv).
  destruct (dynamics self _ _ v) as [ddq | e'] eqn:D; simpl; [discriminate |].
  intros [= <-]. exact (dynamics_never_asserts _ _ _ _ D).
Qed.

(** C6: on a two-element [x] and a control [u] that is the scalar [v] or
    the one-element sequence holding [v], [derivative] is the array
    (x[1], dynamics(x[0], x[1], v)): it returns exactly when [dynamics]
    does, which it does when [L * m <> 0], and the first component of
    whatever it returns is x[1]. *)
Theorem derivative_value (x : list R) (u : control) (v : R) :
  length x = 2%nat ->
  Spec.unwraps u v ->
  derivative self x u
  = (ddq <- dynamics self (nth 0 x 0) (nth 1 x 0) v ;; Ok [nth 1 x 0; ddq])
  /\ (L self * m self <> 0 ->
      derivative self x u
      = Ok [nth 1 x 0; Spec.forward self (nth 0 x 0) (nth 1 x 0) v])
  /\ (forall r, derivative self x u = Ok r ->
      length r = 2%nat /\ nth 0 r 0 = nth 1 x 0).
Proof.
  intros Hx Hu.
  assert (E : derivative self x u
              = (ddq <- dynamics self (nth 0 x 0) (nth 1 x 0) v ;;
                 Ok [nth 1 x 0; ddq])).
  { rewrite (two_elements x Hx) at 1. now apply derivative_pair. }
  split; [exact E | split].
  - intros Hnz. rewrite E, dynamics_nonzero by exact Hnz. reflexivity.
  - intros r. rewrite E.
    destruct (dynamics self _ _ v) as [ddq | e]; simpl; [| discriminate].
    intros [= <-]. split; reflexivity.
Qed.

(** C9: [derivative] raises AssertionError exactly when [x] does not have
    two elements or [u] is a sequence whose length is not one; a failure is
    an outcome without a result; and under the input contract no assertion
    fails: the only failure left is the division by [L * m = 0]. *)
Theorem derivative_contract (x : list R) (u : control) :
  (derivative self x u = Raise AssertionError
   <-> length x <> 2%nat \/ ~ Spec.control_shape u)
  /\ (forall e r, derivative self x u = Raise e -> derivative self x u <> Ok r)
  /\ (length x = 2%nat /\ Spec.control_shape u ->
      forall e, derivative self x u = Raise e ->
                e <> AssertionError /\ e = ZeroDivisionError /\ L self * m self = 0).
Proof.
  assert (Hdec : forall s : control, Spec.control_shape s \/ ~ Spec.control_shape s).
  { intros [w | us]; simpl; [now left |].
    destruct (Nat.eq_dec (length us) 1); [now left | now right]. }
  split; [split | split].
  - intros Hfail.
    destruct (Nat.eq_dec (length x) 2) as [Hx | Hx]; [| now left].
    destruct (Hdec u) as [Hu | Hu]; [| now right].
    destruct (derivative_contract_failure x u _ Hx Hu Hfail) as [E _].
    discriminate.
  - intros [Hx | Hu].
    + now apply derivative_bad_state.
    + destruct (Nat.eq_dec (length x) 2) as [Hx | Hx].
      * now apply derivative_bad_control.
      * now apply derivative_bad_state.
  - intros e r -> [=].
  - intros [Hx Hu] e He.
    destruct (derivative_contract_failure x u e Hx Hu He) as [-> Hz].
    repeat split; [discriminate | exact Hz].
Qed.

End Derivative.

Lemma derivative_value_witness :
  length [0; 3] = 2%nat /\
  Spec.unwraps (Sequence [0]) 0 /\
  derivative default [0; 3] (Sequence [0]) = Ok [3; -98 / 10].
Proof.
  assert (Hx : length [0; 3] = 2%nat) by reflexivity.
  assert (Hu : Spec.unwraps (Sequence [0]) 0) by (right; reflexivity).
  split; [exact Hx | split; [exact Hu |]].
  destruct (derivative_value default [0; 3] (Sequence [0]) 0 Hx Hu) as [E _].
  rewrite E. simpl nth. rewrite dynamics_default_origin. reflexivity.
Defined.

Example derivative_scalar_control :
  derivative default [0; 3] (Scalar 0) = Ok [3; -98 / 10].
Proof.
  rewrite (derivative_pair default 0 3 0) by (left; reflexivity).
  rewrite dynamics_default_origin. reflexivity.
Qed.

Example derivative_three_state :
  derivative default [0; 3; 1] (Scalar 0) = Raise AssertionError.
Proof. reflexivity. Qed.

Example derivative_two_controls :
  derivative default [0; 3] (Sequence [0; 0]) = Raise AssertionError.
Proof. reflexivity. Qed.

Example derivative_massless :
  derivative (init 0 1 (98 / 10)) [0; 3] (Scalar 0) = Raise ZeroDivisionError.
Proof.
  rewrite (derivative_pair _ 0 3 0) by (left; reflexivity).
  rewrite dynamics_zero_mass_length by (simpl; lra). reflexivity.
Qed.

(** ** State addition with wrap-around *)

Section Integrate.

Variable self : Pendulum.t.

Lemma np_add_pairs (a b c d : R) : np_add [a; b] [c; d] = Ok [a + c; b + d].
Proof. reflexivity. Qed.

Lemma integrate_pairs (a b c d : R) :
  integrate self [a; b] [c; d] = Ok [py_mod (a + c) two_pi; b + d].
Proof. reflexivity. Qed.

(** C10: on two-element arrays [integrate] does not raise; it returns the
    elementwise sum with the first component reduced modulo 2 pi into
    [0, 2 pi) and the second component x[1] + dx[1] as it is. *)
Theorem integrate_wraps_angle (x dx : list R) :
  length x = 2%nat ->
  length dx = 2%nat ->
  exists a : R,
    integrate self x dx = Ok [a; nth 1 x 0 + nth 1 dx 0]
    /\ a = py_mod (nth 0 x 0 + nth 0 dx 0) (PI * 2)
    /\ Spec.reduced (nth 0 x 0 + nth 0 dx 0) a.
Proof.
  intros Hx Hdx.
  rewrite (two_elements x Hx), (two_elements dx Hdx). simpl nth.
  exists (py_mod (nth 0 x 0 + nth 0 dx 0) two_pi).
  split; [apply integrate_pairs | split; [reflexivity | apply wrap_reduced]].
Qed.

End Integrate.

Lemma integrate_wraps_angle_witness :
  length [1; 2] = 2%nat /\
  length [-2; 5] = 2%nat /\
  exists a : R,
    integrate default [1; 2] [-2; 5] = Ok [a; 2 + 5]
    /\ a = py_mod (1 + -2) (PI * 2)
    /\ Spec.reduced (1 + -2) a.
Proof.
  split; [reflexivity | split; [reflexivity |]].
  exact (integrate_wraps_angle default [1; 2] [-2; 5] eq_refl eq_refl).
Defined.

Example integrate_shape_mismatch :
  integrate default [1; 2] [1; 2; 3] = Raise ValueError.
Proof. reflexivity. Qed.

Example integrate_empty : integrate default [] [] = Raise IndexError.
Proof. reflexivity. Qed.

(** ** The simulation loop *)

Section Simulation.

Context {Pol : Type}.
Variable self : Pendulum.t.
Variable ufunc : policy Pol.
Variables dt T : R.

Local Abbreviation body := (Pendulum.body self ufunc dt).
Local Abbreviation loop := (Pendulum.loop self ufunc dt T).

(** *** Clamping *)



(** *** One iteration *)

Lemma body_step (st : frame Pol) (u ddq : R) (pol' : Pol) :
  ufunc (f_pol st) (f_t st) (f_q st) (f_dq st) = Ok (u, pol') ->
  dynamics self (f_q st) (f_dq st) (Spec.clamp self u) = Ok ddq ->
  body st = Ok (Spec.euler_step self dt st u ddq pol').
Proof.
  intros Hu Hd. unfold Pendulum.body. rewrite Hu. simpl.
  assert (E : match umax self with
              | Some hi => py_min match umin self with
                                  | Some lo => py_max u lo
                                  | None => u
                                  end hi
              | None => match umin self with
                        | Some lo => py_max u lo
                        | None => u
                        end
              end = Spec.clamp self u).
  { unfold Spec.clamp.
    destruct (umin self), (umax self);
      rewrite ?py_min_Rmin, ?py_max_Rmax; reflexivity. }
  rewrite E, Hd. reflexivity.
Qed.

Lemma body_inversion (st st' : frame Pol) :
  body st = Ok st' ->
  exists u ddq pol',
    ufunc (f_pol st) (f_t st) (f_q st) (f_dq st) = Ok (u, pol')
    /\ dynamics self (f_q st) (f_dq st) (Spec.clamp self u) = Ok ddq
    /\ st' = Spec.euler_step self dt st u ddq pol'.
Proof.
  intros H.
  destruct (ufunc (f_pol st) (f_t st) (f_q st) (f_dq st)) as [[u pol'] | e] eqn:Hu.
  - destruct (dynamics self (f_q st) (f_dq st) (Spec.clamp self u)) as [ddq | e] eqn:Hd.
    + exists u, ddq, pol'. rewrite (body_step st u ddq pol' Hu Hd) in H.
      injection H as <-. auto.
    + exfalso. revert H. unfold Pendulum.body. rewrite Hu. simpl.
      replace (match umax self with
               | Some hi => py_min match umin self with
                                   | Some lo => py_max u lo
                                   | None => u
                                   end hi
               | None => match umin self with
                         | Some lo => py_max u lo
                         | None => u
                         end
               end) with (Spec.clamp self u).
      * rewrite Hd. discriminate.
      * unfold Spec.clamp.
        destruct (umin self), (umax self);
          rewrite ?py_min_Rmin, ?py_max_Rmax; reflexivity.
  - exfalso. revert H. unfold Pendulum.body. rewrite Hu. discriminate.
Qed.

Lemma body_policy_raises (st : frame Pol) (e : exn) :
  ufunc (f_pol st) (f_t st) (f_q st) (f_dq st) = Raise e ->
  body st = Raise e.
Proof. intros Hu. unfold Pendulum.body. rewrite Hu. reflexivity. Qed.

(** *** Unfolding the loop *)

Lemma loop_exit (fuel : nat) (st : frame Pol) :
  ~ f_t st < T -> loop fuel st = Some (Ok st).
Proof.
  intros H. destruct fuel; simpl;
    destruct (Rlt_dec (f_t st) T); try contradiction; reflexivity.
Qed.

Lemma loop_iter (fuel : nat) (st st' : frame Pol) :
  f_t st < T -> body st = Ok st' -> loop (S fuel) st = loop fuel st'.
Proof.
  intros Ht Hb. simpl. destruct (Rlt_dec (f_t st) T); [| contradiction].
  rewrite Hb. reflexivity.
Qed.

Lemma loop_raise (fuel : nat) (st : frame Pol) (e : exn) :
  f_t st < T -> body st = Raise e -> loop (S fuel) st = Some (Raise e).
Proof.
  intros Ht Hb. simpl. destruct (Rlt_dec (f_t st) T); [| contradiction].
  rewrite Hb. reflexivity.
Qed.

Lemma loop_invariant (I : frame Pol -> Prop) :
  (forall st st', I st -> f_t st < T -> body st = Ok st' -> I st') ->
  forall fuel st st',
    I st -> loop fuel st = Some (Ok st') -> I st' /\ ~ f_t st' < T.
Proof.
  intros Hstep. induction fuel as [| fuel IH]; intros st st' Hi; simpl;
    destruct (Rlt_dec (f_t st) T) as [Ht | Ht]; try discriminate;
    try (intros [= <-]; now split).
  destruct (body st) as [st1 | e] eqn:Hb; [| discriminate].
  intros Hl. apply (IH st1 st'); [| exact Hl].
  now apply (Hstep st st1).
Qed.

Lemma loop_more_fuel (fuel k : nat) (st : frame Pol) (r : result (frame Pol)) :
  loop fuel st = Some r -> loop (fuel + k) st = Some r.
Proof.
  revert st. induction fuel as [| fuel IH]; intros st; simpl.
  - destruct (Rlt_dec (f_t st) T) as [Ht | Ht]; [discriminate |].
    intros [= <-]. now apply loop_exit.
  - destruct (Rlt_dec (f_t st) T) as [Ht | Ht]; [| auto].
    destruct (body st) as [st1 | e]; [apply IH | auto].
Qed.

(** *** Counting iterations *)

Lemma trace_app_empty (r : trace) : Spec.trace_app r empty_trace = r.
Proof.
  destruct r. unfold Spec.trace_app. simpl. now rewrite !app_nil_r.
Qed.

Lemma step_total (st : frame Pol) :
  L self * m self <> 0 ->
  Spec.answers ufunc ->
  exists u pol',
    ufunc (f_pol st) (f_t st) (f_q st) (f_dq st) = Ok (u, pol')
    /\ body st
       = Ok (Spec.euler_step self dt st u
               (Spec.forward self (f_q st) (f_dq st) (Spec.clamp self u)) pol').
Proof.
  intros Hnz Hans.
  destruct (Hans (f_pol st) (f_t st) (f_q st) (f_dq st)) as (u & pol' & Hu).
  exists u, pol'. split; [exact Hu |].
  apply body_step; [exact Hu | now apply dynamics_nonzero].
Qed.

Lemma loop_iterate (n : nat) :
  L self * m self <> 0 ->
  Spec.answers ufunc ->
  forall st : frame Pol,
    (forall i : nat, (i < n)%nat -> f_t st + INR i * dt < T) ->
    exists (st' : frame Pol) (s : trace),
      (forall fuel, loop (n + fuel) st = loop fuel st')
      /\ f_t st' = f_t st + INR n * dt
      /\ f_res st' = Spec.trace_app (f_res st) s
      /\ Spec.samples n s.
Proof.
  intros Hnz Hans. induction n as [| n IH]; intros st Hlt.
  - exists st, empty_trace. repeat split; simpl; try reflexivity.
    + ring.
    + symmetry. apply trace_app_empty.
  - assert (Ht : f_t st < T).
    { specialize (Hlt O (Nat.lt_0_succ n)). simpl in Hlt. lra. }
    destruct (step_total st Hnz Hans) as (u & pol' & _ & Hb).
    set (st1 := Spec.euler_step self dt st u _ pol') in Hb.
    destruct (IH st1) as (st' & s & Hrun & Htime & Hres & Hlen).
    { intros i Hi. specialize (Hlt (S i) (proj1 (Nat.succ_lt_mono i n) Hi)).
      rewrite S_INR in Hlt. subst st1. simpl. lra. }
    exists st'.
    exists (Spec.trace_app
              (Spec.record_sample (f_t st) (f_q st) (f_dq st)
                 (Spec.forward self (f_q st) (f_dq st) (Spec.clamp self u))
                 (Spec.clamp self u) empty_trace) s).
    split; [| split; [| split]].
    + intros fuel. simpl Nat.add. rewrite (loop_iter _ st st1 Ht Hb). apply Hrun.
    + rewrite Htime, S_INR. subst st1. simpl. ring.
    + rewrite Hres. subst st1. unfold Spec.trace_app, Spec.record_sample. simpl.
      now rewrite <- !app_assoc.
    + destruct Hlen as (H1 & H2 & H3 & H4 & H5 & H6).
      unfold Spec.samples, Spec.trace_app. simpl.
      rewrite H1, H2, H3, H4, H5, H6. repeat split; reflexivity.
Qed.

Lemma loop_terminates_within (n : nat) :
  0 < dt ->
  L self * m self <> 0 ->
  Spec.answers ufunc ->
  forall st : frame Pol,
    T - f_t st <= INR n * dt ->
    exists st' : frame Pol, forall fuel, loop (n + fuel) st = Some (Ok st').
Proof.
  intros Hdt Hnz Hans. induction n as [| n IH]; intros st Hn.
  - exists st. intros fuel. apply loop_exit. simpl in Hn. lra.
  - destruct (Rlt_dec (f_t st) T) as [Ht | Ht].
    + destruct (step_total st Hnz Hans) as (u & pol' & _ & Hb).
      set (st1 := Spec.euler_step self dt st u _ pol') in Hb.
      destruct (IH st1) as [st' Hrun].
      { rewrite S_INR in Hn. subst st1. simpl. lra. }
      exists st'. intros fuel. simpl Nat.add.
      rewrite (loop_iter _ st st1 Ht Hb). apply Hrun.
    + exists st. intros fuel. now apply loop_exit.
Qed.

Lemma loop_terminates (st : frame Pol) :
  0 < dt ->
  L self * m self <> 0 ->
  Spec.answers ufunc ->
  exists (n : nat) (st' : frame Pol),
    forall fuel, loop (n + fuel) st = Some (Ok st').
Proof.
  intros Hdt Hnz Hans.
  destruct (nat_above ((T - f_t st) / dt)) as [n Hn].
  exists n. apply loop_terminates_within; try assumption.
  apply (Rmult_lt_compat_r dt) in Hn; [| exact Hdt].
  unfold Rdiv in Hn. rewrite Rmult_assoc, Rinv_l, Rmult_1_r in Hn by lra. lra.
Qed.

End Simulation.

(** ** [simulate] *)

Section Simulate.

Context {Pol : Type}.
Variable self : Pendulum.t.
Variables q0 dq0 : R.
Variable ufunc : policy Pol.
Variable pol0 : Pol.
Variables dt T : R.

Local Abbreviation start := (Frame 0 q0 dq0 empty_trace pol0).
Local Abbreviation run := (simulate self q0 dq0 ufunc pol0 dt T).

Lemma simulate_inversion (fuel : nat) (tr : trace) :
  run fuel = Some (Ok tr) ->
  exists st, loop self ufunc dt T fuel start = Some (Ok st) /\ f_res st = tr.
Proof.
  unfold simulate.
  destruct (loop self ufunc dt T fuel start) as [[st | e] |]; try discriminate.
  intros [= <-]. now exists st.
Qed.

Lemma simulate_of_loop (fuel : nat) (st : frame Pol) :
  loop self ufunc dt T fuel start = Some (Ok st) ->
  run fuel = Some (Ok (f_res st)).
Proof. intros H. unfold simulate. now rewrite H. Qed.

(** X10: With a positive step, a model that can be divided by and a policy that
    answers, the call returns a trace, whatever fuel is left over. *)
Lemma simulate_returns :
  0 < dt ->
  L self * m self <> 0 ->
  Spec.answers ufunc ->
  exists (n : nat) (tr : trace), forall fuel, run (n + fuel) = Some (Ok tr).
Proof.
  intros Hdt Hnz Hans.
  destruct (loop_terminates self ufunc dt T start Hdt Hnz Hans) as (n & st & Hrun).
  exists n, (f_res st). intros fuel. apply simulate_of_loop, Hrun.
Qed.

(** X14: With a positive horizon, a model with [L * m = 0] and a policy
    that answers, the first iteration raises ZeroDivisionError and no trace
    is returned. *)
Lemma simulate_zero_division (fuel : nat) :
  0 < T ->
  L self * m self = 0 ->
  Spec.answers ufunc ->
  run (S fuel) = Some (Raise ZeroDivisionError).
Proof.
  intros HT Hz Hans. unfold simulate.
  destruct (Hans pol0 0 q0 dq0) as (u & pol' & Hu).
  rewrite (loop_raise self ufunc dt T fuel start ZeroDivisionError); auto.
  unfold body. simpl. rewrite Hu. simpl.
  now rewrite dynamics_zero_mass_length.
Qed.





End Simulate.

(** ** One iteration, in the words of the specification *)

Section Iteration.

Context {Pol : Type}.
Variable self : Pendulum.t.
Variable ufunc : policy Pol.
Variables dt T : R.

(** C7: an iteration entered with [t < T] asks the policy once (its state
    moves from [pol] to the [pol'] of that one answer), clamps the answer,
    takes [ddq = dynamics(q, dq, u)], appends the sample of the values
    before the update, and leaves [t + dt], [(q + dt dq) mod 2 pi] and
    [dq + dt ddq], both computed from the old [dq] and [ddq]; the angle it
    leaves is wrapped: it lies in [0, 2 pi) and differs from [q + dt dq] by
    a whole number of turns. *)
Theorem iteration_is_explicit_euler
    (t q dq : R) (res : trace) (pol pol' : Pol) (u0 : R) :
  t < T ->
  L self * m self <> 0 ->
  ufunc pol t q dq = Ok (u0, pol') ->
  let u := Spec.clamp self u0 in
  let ddq := Spec.forward self q dq u in
  let next :=
    Frame (t + dt) (py_mod (q + dt * dq) (PI * 2)) (dq + dt * ddq)
          (Trace (tr_t res ++ [t]) (tr_x res ++ [[q; dq]]) (tr_q res ++ [q])
                 (tr_dq res ++ [dq]) (tr_u res ++ [u]) (tr_ddq res ++ [ddq]))
          pol' in
  dynamics self q dq u = Ok ddq
  /\ body self ufunc dt (Frame t q dq res pol) = Ok next
  /\ (forall fuel,
        loop self ufunc dt T (S fuel) (Frame t q dq res pol)
        = loop self ufunc dt T fuel next)
  /\ Spec.reduced (q + dt * dq) (f_q next).
Proof.
  intros Ht Hnz Hu u ddq next.
  assert (Hd : dynamics self q dq u = Ok ddq) by now apply dynamics_nonzero.
  assert (Hb : body self ufunc dt (Frame t q dq res pol) = Ok next).
  { now apply (body_step self ufunc dt (Frame t q dq res pol) u0 ddq pol'). }
  split; [exact Hd | split; [exact Hb | split]].
  - intros fuel. now apply loop_iter.
  - apply wrap_reduced.
Qed.

End Iteration.

(** X21: The policy is queried once per recorded sample: a policy that
    counts its queries in its own state, started level with the number of
    recorded controls, ends level with it. *)
Lemma queries_match_samples (self : Pendulum.t) (f : R -> R -> R -> R)
    (dt T : R) (fuel : nat) (st st' : frame nat) :
  loop self (fun n t q dq => Ok (f t q dq, S n)) dt T fuel st = Some (Ok st') ->
  f_pol st = length (tr_u (f_res st)) ->
  f_pol st' = length (tr_u (f_res st')).
Proof.
  intros Hl H0.
  apply (loop_invariant self _ dt T
           (fun st => f_pol st = length (tr_u (f_res st)))) in Hl.
  - tauto.
  - clear. intros st st' Hi _ Hb.
    destruct (body_inversion _ _ _ _ _ Hb) as (u & ddq & pol' & Hu & _ & ->).
    injection Hu as _ <-. simpl. rewrite length_app, Hi. simpl. lia.
  - exact H0.
Qed.

(** ** Worked runs *)

(** The policy [lambda t,q,dq: c]. *)
Lemma constant_policy_answers (c : R) :
  Spec.answers (pure_policy (fun _ _ _ => c)).
Proof. intros pol t q dq. now exists c, pol. Qed.

(** A horizon covered by one step: a single sample. *)
Lemma simulate_single_step (self : Pendulum.t) (q0 dq0 c dt T : R) (k : nat) :
  L self * m self <> 0 ->
  0 < T <= dt ->
  simulate self q0 dq0 (pure_policy (fun _ _ _ => c)) tt dt T (S k)
  = Some (Ok (Spec.record_sample 0 q0 dq0
                (Spec.forward self q0 dq0 (Spec.clamp self c))
                (Spec.clamp self c) empty_trace)).
Proof.
  intros Hnz [HT Hdt].
  set (ufunc := pure_policy (fun _ _ _ => c)).
  set (st := Frame 0 q0 dq0 empty_trace tt).
  set (ddq := Spec.forward self q0 dq0 (Spec.clamp self c)).
  assert (Hb : body self ufunc dt st
               = Ok (Spec.euler_step self dt st c ddq tt)).
  { apply body_step; [reflexivity | now apply dynamics_nonzero]. }
  apply (simulate_of_loop self q0 dq0 ufunc tt dt T (S k)
           (Spec.euler_step self dt st c ddq tt)).
  change (loop self ufunc dt T (S k) st
          = Some (Ok (Spec.euler_step self dt st c ddq tt))).
  rewrite (loop_iter self ufunc dt T k st _ HT Hb).
  apply loop_exit. simpl. lra.
Qed.


(** A horizon covered by two steps: two samples. *)
Lemma simulate_two_steps (self : Pendulum.t) (q0 dq0 c dt T : R) (k : nat) :
  L self * m self <> 0 ->
  0 < dt < T ->
  T <= 2 * dt ->
  simulate self q0 dq0 (pure_policy (fun _ _ _ => c)) tt dt T (2 + k)
  = Some (Ok (Demo.two_samples self q0 dq0 c dt)).
Proof.
  intros Hnz [Hdt HT] HT2.
  set (ufunc := pure_policy (fun _ _ _ => c)).
  pose (st0 := Frame 0 q0 dq0 empty_trace tt).
  pose (st1 := Spec.euler_step self dt st0 c
                 (Spec.forward self q0 dq0 (Spec.clamp self c)) tt).
  pose (st2 := Spec.euler_step self dt st1 c
                 (Spec.forward self (f_q st1) (f_dq st1) (Spec.clamp self c)) tt).
  assert (Hb0 : body self ufunc dt st0 = Ok st1).
  { apply body_step; [reflexivity | now apply dynamics_nonzero]. }
  assert (Hb1 : body self ufunc dt st1 = Ok st2).
  { apply body_step; [reflexivity | now apply dynamics_nonzero]. }
  apply (simulate_of_loop self q0 dq0 ufunc tt dt T (2 + k) st2).
  change (loop self ufunc dt T (S (S k)) st0 = Some (Ok st2)).
  rewrite (loop_iter self ufunc dt T (S k) st0 st1) by (simpl; lra || exact Hb0).
  rewrite (loop_iter self ufunc dt T k st1 st2) by (simpl; lra || exact Hb1).
  apply loop_exit. simpl. lra.
Qed.

(** One turn below: -1 wraps to 2 pi - 1. *)
Lemma wrap_minus_one : py_mod (0 + 1 * -1) (PI * 2) = 2 * PI - 1.
Proof.
  unfold py_mod.
  assert (Hk : Int_part ((0 + 1 * -1) / (PI * 2)) = (-1)%Z).
  { symmetry. apply Int_part_spec.
    pose proof PI2_1 as Hpi.
    assert (Hpos : 0 < / (PI * 2)) by (apply Rinv_0_lt_compat; lra).
    assert (Hinv : / (PI * 2) * (PI * 2) = 1) by (apply Rinv_l; lra).
    unfold Rdiv. nra. }
  rewrite Hk. simpl. lra.
Qed.



Example clamp_from_above : Rmin (Rmax 5 (-1)) 1 = 1.
Proof.
  unfold Rmax, Rmin.
  destruct (Rle_dec 5 (-1)); [lra |]. destruct (Rle_dec 5 1); [lra | reflexivity].
Qed.

Lemma iteration_is_explicit_euler_witness :
  0 < 2
  /\ L default * m default <> 0
  /\ pure_policy (fun _ _ _ => 0) tt 0 0 (-1) = Ok (0, tt)
  /\ body default (pure_policy (fun _ _ _ => 0)) 1
          (Frame 0 0 (-1) empty_trace tt)
     = Ok (Frame (0 + 1) (py_mod (0 + 1 * -1) (PI * 2))
                 (-1 + 1 * Spec.forward default 0 (-1) 0)
                 (Trace [0] [[0; -1]] [0] [-1] [0]
                        [Spec.forward default 0 (-1) 0])
                 tt)
  /\ Spec.reduced (0 + 1 * -1) (py_mod (0 + 1 * -1) (PI * 2)).
Proof.
  assert (Ht : 0 < 2) by lra.
  assert (Hnz : L default * m default <> 0) by (simpl; lra).
  assert (Hu : pure_policy (fun _ _ _ => 0) tt 0 0 (-1) = Ok (0, tt))
    by reflexivity.
  split; [exact Ht | split; [exact Hnz | split; [exact Hu |]]].
  destruct (iteration_is_explicit_euler default
              (pure_policy (fun _ _ _ => 0)) 1 2
              0 0 (-1) empty_trace tt tt 0 Ht Hnz Hu) as (_ & Hb & _ & Hw).
  split; [exact Hb | exact Hw].
Defined.

(** C8: the default model started at rest at angle 0 with zero torque,
    dt = 0.01 and T = 0.05, returns (for any fuel of at least 5) one trace
    of exactly 5 samples whose first sample is t=0, q=0, dq=0, u=0 and
    ddq = dynamics(0,0,0) = -9.8. *)
Theorem simulate_default_scenario :
  exists tr : trace,
    (forall k : nat,
        simulate default 0 0 (pure_policy (fun _ _ _ => 0)) tt
                 (1 / 100) (5 / 100) (5 + k) = Some (Ok tr))
    /\ Spec.samples 5 tr
    /\ hd_error (tr_t tr) = Some 0
    /\ hd_error (tr_q tr) = Some 0
    /\ hd_error (tr_dq tr) = Some 0
    /\ hd_error (tr_u tr) = Some 0
    /\ hd_error (tr_ddq tr) = Some (-98 / 10)
    /\ hd_error (tr_x tr) = Some [0; 0]
    /\ dynamics default 0 0 0 = Ok (-98 / 10).
Proof.
  set (ufunc := pure_policy (fun _ _ _ => 0)).
  pose (st0 := Frame 0 0 0 empty_trace tt).
  pose (st1 := Spec.euler_step default (1 / 100) st0 0 (-98 / 10) tt).
  assert (Hnz : L default * m default <> 0) by (simpl; lra).
  assert (Hb : body default ufunc (1 / 100) st0 = Ok st1).
  { apply body_step; [reflexivity | apply dynamics_default_origin]. }
  destruct (loop_iterate default ufunc (1 / 100) (5 / 100) 4 Hnz
              (constant_policy_answers 0) st1)
    as (st5 & s & Hrun & Htime & Hres & Hlen).
  { intros i Hi. apply lt_INR in Hi. simpl in Hi. simpl. lra. }
  exists (f_res st5). split.
  - intros k. apply (simulate_of_loop default 0 0 ufunc tt).
    change (loop default ufunc (1 / 100) (5 / 100) (S (4 + k)) st0
            = Some (Ok st5)).
    rewrite (loop_iter default ufunc (1 / 100) (5 / 100) (4 + k) st0 st1)
      by (simpl; lra || exact Hb).
    rewrite Hrun. apply loop_exit. rewrite Htime. simpl. lra.
  - rewrite Hres. destruct Hlen as (H1 & H2 & H3 & H4 & H5 & H6).
    unfold Spec.samples. simpl. rewrite H1, H2, H3, H4, H5, H6.
    repeat split; try reflexivity. apply dynamics_default_origin.
Qed.

(** The same count on doubles: adding 0.01 five times to 0 reaches 0.05
    and not a value just below it, so Python's floats give 5 samples too. *)
#[warnings="-inexact-float"]
Example clock_default_scenario (k : nat) :
  Binary64.clock (5 + k) 0%float 0.01%float 0.05%float = Some 5%nat.
Proof. destruct k; vm_compute; reflexivity. Qed.

(** ** Periodicity *)

Lemma Int_part_shift (r : R) (k : Z) : Int_part (r + IZR k) = (Int_part r + k)%Z.
Proof.
  symmetry. apply Int_part_spec.
  destruct (base_Int_part r) as [Hle Hgt]. rewrite plus_IZR. lra.
Qed.

Lemma py_mod_shift (a b : R) (k : Z) :
  b <> 0 -> py_mod (a + IZR k * b) b = py_mod a b.
Proof.
  intros Hb. unfold py_mod.
  replace ((a + IZR k * b) / b) with (a / b + IZR k) by (field; exact Hb).
  rewrite Int_part_shift, plus_IZR. ring.
Qed.

Lemma cos_shift (x : R) (k : Z) : cos (x + IZR k * (2 * PI)) = cos x.
Proof.
  destruct (Z_lt_le_dec k 0) as [Hneg | Hpos].
  - rewrite <- (cos_period (x + IZR k * (2 * PI)) (Z.to_nat (- k))).
    f_equal. rewrite INR_IZR_INZ, Z2Nat.id by lia. rewrite opp_IZR. ring.
  - rewrite <- (cos_period x (Z.to_nat k)).
    f_equal. rewrite INR_IZR_INZ, Z2Nat.id by lia. ring.
Qed.

Lemma cos_wrap (theta : R) : cos (py_mod theta two_pi) = cos theta.
Proof.
  destruct (py_mod_congruent theta two_pi) as [k Hk].
  rewrite Hk at 2. unfold two_pi.
  replace (IZR k * (PI * 2)) with (IZR k * (2 * PI)) by ring.
  now rewrite cos_shift.
Qed.

(** ** More on the dynamics *)

(** X1: The only way [dynamics] fails is the division: it raises exactly when
    [L * m = 0], and then it is ZeroDivisionError, whatever the state and
    the torque. *)
Theorem dynamics_raises_iff (self : Pendulum.t) (theta dtheta u : R) (e : exn) :
  dynamics self theta dtheta u = Raise e
  <-> L self * m self = 0 /\ e = ZeroDivisionError.
Proof.
  split.
  - intros H. destruct (dynamics_never_asserts self _ _ _ _ H). auto.
  - intros [Hz ->]. now apply dynamics_zero_mass_length.
Qed.

(** X2: When [L * m = 1], as in the default model, [dynamics] and
    [inverse_dynamics] undo each other in both orders. *)
Theorem dynamics_inverse_unit_inertia
    (self : Pendulum.t) (theta dtheta v : R) :
  L self * m self = 1 ->
  (exists ddtheta, dynamics self theta dtheta v = Ok ddtheta
                   /\ inverse_dynamics self theta dtheta ddtheta = v)
  /\ dynamics self theta dtheta (inverse_dynamics self theta dtheta v) = Ok v.
Proof.
  intros E. assert (Hnz : L self * m self <> 0) by lra. split.
  - exists (Spec.forward self theta dtheta v).
    split; [now apply dynamics_nonzero |].
    rewrite (roundtrip_residual self theta dtheta v); [rewrite E; ring |].
    now apply dynamics_nonzero.
  - rewrite dynamics_nonzero by exact Hnz. f_equal.
    rewrite inverse_dynamics_unfold. unfold Spec.forward, Spec.inverse.
    rewrite E. field.
Qed.

Lemma dynamics_inverse_unit_inertia_witness :
  L default * m default = 1
  /\ dynamics default 0 0 (inverse_dynamics default 0 0 (-98 / 10))
     = Ok (-98 / 10).
Proof.
  assert (E : L default * m default = 1) by (simpl; lra).
  split; [exact E |].
  exact (proj2 (dynamics_inverse_unit_inertia default 0 0 (-98 / 10) E)).
Defined.

(** X3: Both laws see the angle only through its cosine, so the wrap-around of
    [simulate] and [integrate] does not change them: the angle reduced
    modulo 2 pi gives the same acceleration and the same torque. *)
Theorem dynamics_blind_to_wrap (self : Pendulum.t) (theta dtheta v : R) :
  dynamics self (py_mod theta (PI * 2)) dtheta v = dynamics self theta dtheta v
  /\ inverse_dynamics self (py_mod theta (PI * 2)) dtheta v
     = inverse_dynamics self theta dtheta v.
Proof.
  change (PI * 2) with two_pi. split.
  - rewrite !dynamics_unfold. now rewrite (cos_wrap theta).
  - rewrite !inverse_dynamics_unfold. unfold Spec.inverse.
    now rewrite (cos_wrap theta).
Qed.

(** X4: For [L * m > 0] the acceleration grows with the torque, at the rate
    [1 / (L m)]. *)
Theorem dynamics_affine_in_torque
    (self : Pendulum.t) (theta dtheta u1 u2 a1 a2 : R) :
  dynamics self theta dtheta u1 = Ok a1 ->
  dynamics self theta dtheta u2 = Ok a2 ->
  a1 - a2 = (u1 - u2) / (L self * m self)
  /\ (0 < L self * m self -> u1 <= u2 -> a1 <= a2).
Proof.
  rewrite !dynamics_unfold. unfold py_div.
  destruct (Req_dec_T (L self * m self) 0) as [E | Hnz]; [discriminate |].
  intros [= <-] [= <-].
  assert (Hd : (u1 + Spec.visc self dtheta - m self * cos theta * g self)
               / (L self * m self)
               - (u2 + Spec.visc self dtheta - m self * cos theta * g self)
                 / (L self * m self)
               = (u1 - u2) / (L self * m self)).
  { field. split; intros E; apply Hnz; rewrite E; ring. }
  split; [exact Hd |].
  intros Hpos Hle.
  assert (Hq : (u1 - u2) / (L self * m self) <= 0).
  { unfold Rdiv. rewrite <- (Rmult_0_l (/ (L self * m self))).
    apply Rmult_le_compat_r; [left; now apply Rinv_0_lt_compat | lra]. }
  lra.
Qed.

Lemma dynamics_affine_in_torque_witness :
  dynamics default 0 0 0 = Ok (-98 / 10)
  /\ dynamics default 0 0 (98 / 10) = Ok 0
  /\ -98 / 10 - 0 = (0 - 98 / 10) / (L default * m default).
Proof.
  assert (H1 : dynamics default 0 0 0 = Ok (-98 / 10))
    by apply dynamics_default_origin.
  assert (H2 : dynamics default 0 0 (98 / 10) = Ok 0).
  { rewrite dynamics_nonzero by (simpl; lra).
    unfold Spec.forward, Spec.visc. simpl. rewrite cos_0. f_equal. field. }
  split; [exact H1 | split; [exact H2 |]].
  exact (proj1 (dynamics_affine_in_torque default 0 0 0 (98 / 10) _ _ H1 H2)).
Defined.

(** ** More on the state derivative *)

(** X5: A call of [derivative] that returns has been given a state of
    [stateDimension()] entries and, when the control is a sequence, a
    control of [controlDimension()] entries, and it returns an array of
    [stateDimension()] entries. *)
Theorem derivative_dimensions
    (self : Pendulum.t) (x : list R) (u : control) (r : list R) :
  derivative self x u = Ok r ->
  length x = stateDimension self
  /\ length r = stateDimension self
  /\ (forall us, u = Sequence us -> length us = controlDimension self).
Proof.
  intros H.
  destruct (Nat.eq_dec (length x) 2) as [Hx | Hx];
    [| rewrite derivative_bad_state in H by exact Hx; discriminate].
  assert (Hu : Spec.control_shape u).
  { destruct u as [v | us]; simpl; [exact I |].
    destruct (Nat.eq_dec (length us) 1) as [E | E]; [exact E |].
    rewrite derivative_bad_control in H; [discriminate | exact Hx |].
    simpl. exact E. }
  split; [exact Hx | split].
  - destruct (shape_unwraps u Hu) as [v Hv].
    rewrite (two_elements x Hx), (derivative_pair self _ _ v u Hv) in H.
    destruct (dynamics self _ _ v) as [ddq | e]; simpl in H; [| discriminate].
    injection H as <-. reflexivity.
  - intros us ->. exact Hu.
Qed.

Lemma derivative_dimensions_witness :
  derivative default [0; 3] (Sequence [0]) = Ok [3; -98 / 10]
  /\ length [0; 3] = stateDimension default
  /\ length [3; -98 / 10] = stateDimension default.
Proof.
  assert (H : derivative default [0; 3] (Sequence [0]) = Ok [3; -98 / 10]).
  { rewrite (derivative_pair default 0 3 0) by (right; reflexivity).
    rewrite dynamics_default_origin. reflexivity. }
  split; [exact H |].
  destruct (derivative_dimensions default _ _ _ H) as (H1 & H2 & _).
  split; [exact H1 | exact H2].
Defined.

(** ** More on the state addition *)

Lemma zip_add_length (a b : list R) :
  length (zip_add a b) = Nat.min (length a) (length b).
Proof.
  revert b. induction a as [| x a IH]; intros [| y b]; simpl; auto.
Qed.

Lemma integrate_of_sum (self : Pendulum.t) (x dx : list R) (s0 : R) (rest : list R) :
  np_add x dx = Ok (s0 :: rest) ->
  integrate self x dx = Ok (py_mod s0 two_pi :: rest).
Proof. intros H. unfold integrate. rewrite H. reflexivity. Qed.

Lemma integrate_inversion (self : Pendulum.t) (x dx r : list R) :
  integrate self x dx = Ok r ->
  exists s0 rest, np_add x dx = Ok (s0 :: rest) /\ r = py_mod s0 two_pi :: rest.
Proof.
  unfold integrate.
  destruct (np_add x dx) as [[| s0 rest] | e]; simpl; try discriminate.
  intros [= <-]. now exists s0, rest.
Qed.

(** X6: Whatever the lengths of the two one-dimensional arrays, an array returned by
    [integrate] is not empty, its first entry lies in [0, 2 pi) and is the
    first entry of [x + dx] up to a multiple of 2 pi, and its other entries
    are those of [x + dx]. *)
Theorem integrate_result_wrapped (self : Pendulum.t) (x dx r : list R) :
  integrate self x dx = Ok r ->
  exists a s0 rest,
    r = a :: rest
    /\ np_add x dx = Ok (s0 :: rest)
    /\ Spec.reduced s0 a.
Proof.
  intros H. destruct (integrate_inversion self x dx r H) as (s0 & rest & Hs & ->).
  exists (py_mod s0 two_pi), s0, rest.
  split; [reflexivity | split; [exact Hs | apply wrap_reduced]].
Qed.

Lemma integrate_result_wrapped_witness :
  integrate default [1] [-2; 5] = Ok [py_mod (1 + -2) (PI * 2); 1 + 5]
  /\ exists a s0 rest,
       [py_mod (1 + -2) (PI * 2); 1 + 5] = a :: rest
       /\ np_add [1] [-2; 5] = Ok (s0 :: rest)
       /\ Spec.reduced s0 a.
Proof.
  assert (H : integrate default [1] [-2; 5]
              = Ok [py_mod (1 + -2) (PI * 2); 1 + 5]) by reflexivity.
  split; [exact H | exact (integrate_result_wrapped default _ _ _ H)].
Defined.

(** X7: [integrate] returns exactly when neither array is empty and the two
    shapes agree or one of them has a single entry; otherwise it raises:
    ValueError on shapes numpy cannot add, IndexError when the sum has no
    first entry. *)
Theorem integrate_returns_iff (self : Pendulum.t) (x dx : list R) :
  ((exists r, integrate self x dx = Ok r)
   <-> x <> [] /\ dx <> []
       /\ (length x = length dx \/ length x = 1%nat \/ length dx = 1%nat))
  /\ (forall e, integrate self x dx = Raise e ->
                e = ValueError \/ e = IndexError).
Proof.
  split; [split |].
  - intros [r H]. destruct (integrate_inversion self x dx r H) as (s0 & rest & Hs & _).
    revert Hs. unfold np_add.
    destruct (Nat.eqb_spec (length x) (length dx)) as [E | E].
    + destruct x as [| a x], dx as [| b dx]; simpl; try discriminate.
      intros _. repeat split; try discriminate. now left.
    + destruct x as [| a [| a' x]], dx as [| b [| b' dx]]; simpl;
        try discriminate; intros _; repeat split; try discriminate; auto.
  - intros (Hx & Hdx & Hshape).
    destruct x as [| a x]; [now elim Hx |].
    destruct dx as [| b dx]; [now elim Hdx |].
    unfold integrate, np_add.
    destruct (Nat.eqb_spec (length (a :: x)) (length (b :: dx))) as [E | E].
    + simpl. eexists. reflexivity.
    + destruct Hshape as [H | [H | H]]; [contradiction | |].
      * destruct x; [| discriminate]. simpl. eexists. reflexivity.
      * destruct dx; [| discriminate].
        destruct x; simpl; eexists; reflexivity.
  - intros e. unfold integrate, np_add.
    destruct (Nat.eqb_spec (length x) (length dx)) as [E | E].
    + destruct x as [| a x], dx as [| b dx]; simpl; try discriminate.
      intros [= <-]. now right.
    + destruct x as [| a [| a' x]], dx as [| b [| b' dx]]; simpl;
        try discriminate; intros [= <-]; auto.
Qed.

(** ** The trace, sample by sample *)

Lemma nth_error_snoc (A : Type) (l : list A) (a v : A) (i : nat) :
  nth_error (l ++ [a]) i = Some v ->
  ((i < length l)%nat /\ nth_error l i = Some v)
  \/ (i = length l /\ v = a).
Proof.
  intros H. destruct (Nat.lt_ge_cases i (length l)) as [Hlt | Hge].
  - left. rewrite nth_error_app1 in H by exact Hlt. auto.
  - right. rewrite nth_error_app2 in H by exact Hge.
    destruct (i - length l)%nat as [| j] eqn:E; simpl in H.
    + injection H as <-. split; [lia | reflexivity].
    + destruct j; discriminate.
Qed.

Lemma nth_error_snoc_old (A : Type) (l : list A) (a v : A) (i : nat) :
  nth_error l i = Some v -> nth_error (l ++ [a]) i = Some v.
Proof.
  intros H. rewrite nth_error_app1; [exact H |].
  apply nth_error_Some. rewrite H. discriminate.
Qed.

Lemma nth_error_snoc_last (A : Type) (l : list A) (a : A) :
  nth_error (l ++ [a]) (length l) = Some a.
Proof. rewrite nth_error_app2, Nat.sub_diag by lia. reflexivity. Qed.

Lemma every_sample_weaken
    (P Q : nat -> R -> R -> R -> R -> R -> list R -> Prop) (r : trace) :
  (forall i t q dq ddq u x, P i t q dq ddq u x -> Q i t q dq ddq u x) ->
  Rows.every_sample P r -> Rows.every_sample Q r.
Proof.
  intros Himp Hp i t q dq ddq u x Ht Hq Hdq Hddq Hu Hx.
  apply Himp. now apply (Hp i).
Qed.

Lemma every_sample_record
    (P : nat -> R -> R -> R -> R -> R -> list R -> Prop)
    (n : nat) (r : trace) (t q dq ddq u : R) :
  Spec.samples n r ->
  Rows.every_sample P r ->
  P n t q dq ddq u [q; dq] ->
  Rows.every_sample P (Spec.record_sample t q dq ddq u r).
Proof.
  intros (H1 & H2 & H3 & H4 & H5 & H6) Hr Hp i t' q' dq' ddq' u' x'. simpl.
  intros Ht Hq Hdq Hddq Hu Hx.
  apply nth_error_snoc in Ht, Hq, Hdq, Hddq, Hu, Hx.
  destruct Ht as [[Hi Ht] | [Hi ->]].
  - destruct Hq as [[_ Hq] | [Hc _]]; [| lia].
    destruct Hdq as [[_ Hdq] | [Hc _]]; [| lia].
    destruct Hddq as [[_ Hddq] | [Hc _]]; [| lia].
    destruct Hu as [[_ Hu] | [Hc _]]; [| lia].
    destruct Hx as [[_ Hx] | [Hc _]]; [| lia].
    now apply (Hr i).
  - destruct Hq as [[Hc _] | [_ ->]]; [lia |].
    destruct Hdq as [[Hc _] | [_ ->]]; [lia |].
    destruct Hddq as [[Hc _] | [_ ->]]; [lia |].
    destruct Hu as [[Hc _] | [_ ->]]; [lia |].
    destruct Hx as [[Hc _] | [_ ->]]; [lia |].
    rewrite Hi, H1. exact Hp.
Qed.


Section Records.

Context {Pol : Type}.
Variable self : Pendulum.t.
Variables q0 dq0 : R.
Variable ufunc : policy Pol.
Variable pol0 : Pol.
Variables dt T : R.

Local Abbreviation start := (Frame 0 q0 dq0 empty_trace pol0).
Local Abbreviation run := (simulate self q0 dq0 ufunc pol0 dt T).
Local Abbreviation inv := (Rows.run_invariant self q0 dq0 ufunc dt T).

Lemma run_invariant_start : inv start.
Proof.
  exists O. simpl. split; [| split; [| split; [| split; [| split]]]].
  - repeat split.
  - ring.
  - intros i t q dq ddq u x Ht. destruct i; discriminate.
  - intros i q dq ddq _ _ Ha. destruct i; discriminate.
  - reflexivity.
  - reflexivity.
Qed.

Lemma run_invariant_step (st st' : frame Pol) :
  inv st -> f_t st < T -> body self ufunc dt st = Ok st' -> inv st'.
Proof.
  intros (n & Hlen & Htime & Hrec & Hchain & Hq0 & Hdq0) Hlt Hb.
  destruct (body_inversion _ _ _ _ _ Hb) as (u0 & ddq & pol' & Hu & Hd & ->).
  pose proof Hlen as (L1 & L2 & L3 & L4 & L5 & L6).
  exists (S n). unfold Spec.euler_step. cbn [f_res f_t f_q f_dq].
  split; [| split; [| split; [| split; [| split]]]].
  - unfold Spec.samples. simpl. rewrite !length_app. simpl.
    rewrite L1, L2, L3, L4, L5, L6. repeat split; lia.
  - rewrite Htime, S_INR. ring.
  - apply (every_sample_record _ n); [exact Hlen | exact Hrec |].
    unfold Rows.recorded. rewrite <- Htime.
    repeat split; auto. exists (f_pol st), u0, pol'. auto.
  - unfold Spec.record_sample. cbn [tr_q tr_dq tr_ddq].
    intros i q dq a Hq Hdq Ha.
    apply nth_error_snoc in Ha. rewrite L6 in Ha.
    apply nth_error_snoc in Hq. rewrite length_app, L3 in Hq. simpl in Hq.
    apply nth_error_snoc in Hdq. rewrite length_app, L4 in Hdq. simpl in Hdq.
    destruct Hq as [[_ Hq] | [Hc _]]; [| destruct Ha as [[? _] | [? _]]; lia].
    destruct Hdq as [[_ Hdq] | [Hc _]]; [| destruct Ha as [[? _] | [? _]]; lia].
    destruct Ha as [[Hi Ha] | [-> ->]].
    + destruct (Hchain i q dq a Hq Hdq Ha) as [Cq Cdq].
      split; intros v Hv; [apply Cq | apply Cdq];
        rewrite nth_error_app1 in Hv; auto;
        rewrite length_app; simpl; lia.
    + rewrite <- L3 in Hq at 1. rewrite nth_error_snoc_last in Hq.
      rewrite <- L4 in Hdq at 1. rewrite nth_error_snoc_last in Hdq.
      injection Hq as <-. injection Hdq as <-.
      split; intros v Hv.
      * replace (S n) with (length (tr_q (f_res st) ++ [f_q st])) in Hv
          by (rewrite length_app; simpl; lia).
        rewrite nth_error_snoc_last in Hv. now injection Hv as <-.
      * replace (S n) with (length (tr_dq (f_res st) ++ [f_dq st])) in Hv
          by (rewrite length_app; simpl; lia).
        rewrite nth_error_snoc_last in Hv. now injection Hv as <-.
  - unfold Spec.record_sample. cbn [tr_q]. now apply nth_error_snoc_old.
  - unfold Spec.record_sample. cbn [tr_dq]. now apply nth_error_snoc_old.
Qed.

Lemma run_invariant_exit (fuel : nat) (st : frame Pol) :
  loop self ufunc dt T fuel start = Some (Ok st) ->
  inv st /\ ~ f_t st < T.
Proof.
  intros H. apply (loop_invariant self ufunc dt T inv) in H.
  - exact H.
  - intros a b. apply run_invariant_step.
  - apply run_invariant_start.
Qed.

Lemma run_invariant_trace (fuel : nat) (tr : trace) :
  run fuel = Some (Ok tr) ->
  exists st, f_res st = tr /\ inv st /\ ~ f_t st < T.
Proof.
  intros H. destruct (simulate_inversion self q0 dq0 ufunc pol0 dt T fuel tr H)
    as (st & Hl & <-).
  exists st. split; [reflexivity | now apply (run_invariant_exit fuel)].
Qed.

End Records.

Lemma sample_at (n : nat) (r : trace) (i : nat) :
  Spec.samples n r -> (i < n)%nat ->
  exists t q dq ddq u x,
    nth_error (tr_t r) i = Some t /\ nth_error (tr_q r) i = Some q
    /\ nth_error (tr_dq r) i = Some dq /\ nth_error (tr_ddq r) i = Some ddq
    /\ nth_error (tr_u r) i = Some u /\ nth_error (tr_x r) i = Some x.
Proof.
  intros (H1 & H2 & H3 & H4 & H5 & H6) Hlt.
  assert (Hsome : forall (A : Type) (l : list A),
             length l = n -> exists v, nth_error l i = Some v).
  { intros A l Hl. destruct (nth_error l i) as [v |] eqn:E; [now exists v |].
    apply nth_error_None in E. lia. }
  destruct (Hsome _ _ H1) as [t Ht]. destruct (Hsome _ _ H2) as [x Hx].
  destruct (Hsome _ _ H3) as [q Hq]. destruct (Hsome _ _ H4) as [dq Hdq].
  destruct (Hsome _ _ H5) as [u Hu]. destruct (Hsome _ _ H6) as [ddq Hddq].
  exists t, q, dq, ddq, u, x. auto 10.
Qed.

Lemma clamp_in_bounds (self : Pendulum.t) (u : R) :
  Spec.above_umin self u -> Spec.below_umax self u -> Spec.clamp self u = u.
Proof.
  unfold Spec.above_umin, Spec.below_umax, Spec.clamp.
  destruct (umin self) as [lo |], (umax self) as [hi |]; intros Hlo Hhi.
  - rewrite Rmax_left by exact Hlo. now apply Rmin_left.
  - now apply Rmax_left.
  - now apply Rmin_left.
  - reflexivity.
Qed.


Lemma body_raise_inversion {Pol : Type} (self : Pendulum.t) (ufunc : policy Pol)
    (dt : R) (st : frame Pol) (e : exn) :
  body self ufunc dt st = Raise e ->
  ufunc (f_pol st) (f_t st) (f_q st) (f_dq st) = Raise e
  \/ (e = ZeroDivisionError /\ L self * m self = 0).
Proof.
  intros H.
  destruct (ufunc (f_pol st) (f_t st) (f_q st) (f_dq st)) as [[u pol'] | e'] eqn:Hu.
  - right.
    destruct (dynamics self (f_q st) (f_dq st) (Spec.clamp self u)) as [ddq | e'] eqn:Hd.
    + rewrite (body_step self ufunc dt st u ddq pol' Hu Hd) in H. discriminate.
    + destruct (dynamics_never_asserts self _ _ _ _ Hd) as [-> Hz].
      rewrite dynamics_zero_mass_length in Hd by exact Hz.
      revert H. unfold body. rewrite Hu. simpl.
      rewrite dynamics_zero_mass_length by exact Hz. simpl.
      intros [= <-]. auto.
  - left. rewrite (body_policy_raises self ufunc dt st e' Hu) in H.
    now injection H as <-.
Qed.

Lemma loop_raise_inversion {Pol : Type} (self : Pendulum.t) (ufunc : policy Pol)
    (dt T : R) (fuel : nat) (st : frame Pol) (e : exn) :
  loop self ufunc dt T fuel st = Some (Raise e) ->
  (exists pol t q dq, ufunc pol t q dq = Raise e)
  \/ (e = ZeroDivisionError /\ L self * m self = 0).
Proof.
  revert st. induction fuel as [| fuel IH]; intros st; simpl;
    destruct (Rlt_dec (f_t st) T) as [Ht | Ht]; try discriminate.
  destruct (body self ufunc dt st) as [st' | e'] eqn:Hb; [apply IH |].
  intros [= ->].
  destruct (body_raise_inversion self ufunc dt st e Hb) as [H | H];
    [left | right; exact H].
  now exists (f_pol st), (f_t st), (f_q st), (f_dq st).
Qed.

(** ** What a returned trace holds *)

Section TraceProperties.

Context {Pol : Type}.
Variable self : Pendulum.t.
Variables q0 dq0 : R.
Variable ufunc : policy Pol.
Variable pol0 : Pol.
Variables dt T : R.

Local Abbreviation run := (simulate self q0 dq0 ufunc pol0 dt T).

(** X15: The six lists of a returned trace have one common length, and every
    entry of 'x' is the pair of the entries of 'q' and 'dq' at its index. *)
Theorem simulate_trace_rectangular (fuel : nat) (tr : trace) :
  run fuel = Some (Ok tr) ->
  exists n : nat,
    Spec.samples n tr
    /\ Rows.every_sample (fun _ _ q dq _ _ x => x = [q; dq]) tr.
Proof.
  intros H.
  destruct (run_invariant_trace self q0 dq0 ufunc pol0 dt T fuel tr H)
    as (st & <- & (n & Hlen & _ & Hrec & _) & _).
  exists n. split; [exact Hlen |].
  apply (every_sample_weaken (Rows.recorded self ufunc dt T)); [| exact Hrec].
  intros i t q dq ddq u x (_ & _ & Hx & _). exact Hx.
Qed.

(** X16: The recorded times are the values of the loop's clock: the first is
    0, each next one is the one before plus [dt], every one of them is
    below [T], and the last one plus [dt] is not; no time is recorded only
    when [T] is not positive. *)
Theorem simulate_clock (fuel : nat) (tr : trace) :
  run fuel = Some (Ok tr) ->
  Forall (fun t => t < T) (tr_t tr)
  /\ (forall t, nth_error (tr_t tr) 0 = Some t -> t = 0)
  /\ (forall i t t', nth_error (tr_t tr) i = Some t ->
                     nth_error (tr_t tr) (S i) = Some t' -> t' = t + dt)
  /\ (forall n t, length (tr_t tr) = S n ->
                  nth_error (tr_t tr) n = Some t -> ~ t + dt < T)
  /\ (tr_t tr = [] -> ~ 0 < T).
Proof.
  intros H.
  destruct (run_invariant_trace self q0 dq0 ufunc pol0 dt T fuel tr H)
    as (st & <- & (n & Hlen & Htime & Hrec & _) & Hexit).
  assert (Hat : forall i t, nth_error (tr_t (f_res st)) i = Some t ->
                            t = INR i * dt /\ t < T).
  { intros i t Ht.
    assert (Hi : (i < n)%nat).
    { destruct Hlen as (L1 & _). rewrite <- L1.
      apply nth_error_Some. rewrite Ht. discriminate. }
    destruct (sample_at n (f_res st) i Hlen Hi)
      as (t1 & q & dq & ddq & u & x & Ht1 & Hq & Hdq & Hddq & Hu & Hx).
    destruct (Hrec i t1 q dq ddq u x Ht1 Hq Hdq Hddq Hu Hx) as (E & Hlt & _).
    rewrite Ht in Ht1. injection Ht1 as <-. auto. }
  split; [| split; [| split; [| split]]].
  - apply Forall_forall. intros t Hin.
    destruct (In_nth_error _ _ Hin) as [i Hi]. now apply (Hat i).
  - intros t Ht. destruct (Hat O t Ht) as [E _]. rewrite E. simpl. ring.
  - intros i t t' Ht Ht'.
    destruct (Hat i t Ht) as [E _]. destruct (Hat (S i) t' Ht') as [E' _].
    rewrite E, E', S_INR. ring.
  - intros k t Hk Ht. destruct (Hat k t Ht) as [E _].
    destruct Hlen as (L1 & _). rewrite Hk in L1. subst n.
    rewrite S_INR in Htime. rewrite E. lra.
  - intros Hnil. destruct Hlen as (L1 & _). rewrite Hnil in L1.
    simpl in L1. subst n. simpl in Htime. lra.
Qed.

(** X17: Every sample is consistent with the model: its 'ddq' is what
    [dynamics] returns for its 'q', 'dq' and 'u', and [derivative] applied
    to its 'x' and 'u' returns the pair of its 'dq' and 'ddq'. *)
Theorem simulate_samples_obey_dynamics (fuel : nat) (tr : trace) :
  run fuel = Some (Ok tr) ->
  Rows.every_sample
    (fun _ _ q dq ddq u x =>
       dynamics self q dq u = Ok ddq
       /\ derivative self x (Scalar u) = Ok [dq; ddq]) tr.
Proof.
  intros H.
  destruct (run_invariant_trace self q0 dq0 ufunc pol0 dt T fuel tr H)
    as (st & <- & (n & _ & _ & Hrec & _) & _).
  apply (every_sample_weaken (Rows.recorded self ufunc dt T)); [| exact Hrec].
  intros i t q dq ddq u x (_ & _ & -> & Hd & _). split; [exact Hd |].
  rewrite (derivative_pair self q dq u) by (left; reflexivity).
  rewrite Hd. reflexivity.
Qed.

(** X18: Consecutive samples are one explicit Euler step apart: the next 'q' is
    [(q + dt dq) mod 2 pi] and the next 'dq' is [dq + dt ddq], from the
    sample before; and the first sample, if any, holds [q0] and [dq0]. *)
Theorem simulate_euler_chain (fuel : nat) (tr : trace) :
  run fuel = Some (Ok tr) ->
  Rows.euler_chain dt (tr_q tr) (tr_dq tr) (tr_ddq tr)
  /\ (forall q, nth_error (tr_q tr) 0 = Some q -> q = q0)
  /\ (forall dq, nth_error (tr_dq tr) 0 = Some dq -> dq = dq0).
Proof.
  intros H.
  destruct (run_invariant_trace self q0 dq0 ufunc pol0 dt T fuel tr H)
    as (st & <- & (n & _ & _ & _ & Hchain & Hq0 & Hdq0) & _).
  split; [| split].
  - intros i q dq ddq Hq Hdq Hddq.
    destruct (Hchain i q dq ddq) as [Cq Cdq];
      [now apply nth_error_snoc_old | now apply nth_error_snoc_old | exact Hddq |].
    split; intros v Hv; [apply Cq | apply Cdq]; now apply nth_error_snoc_old.
  - intros q Hq. apply (nth_error_snoc_old _ _ (f_q st)) in Hq.
    rewrite Hq in Hq0. now injection Hq0.
  - intros dq Hdq. apply (nth_error_snoc_old _ _ (f_dq st)) in Hdq.
    rewrite Hdq in Hdq0. now injection Hdq0.
Qed.

(** X19: Every recorded control is an answer of the policy to the recorded
    time and state, clamped; an answer within the bounds that are set (any
    answer, when none is set) is recorded as it is. *)
Theorem simulate_controls_from_policy (fuel : nat) (tr : trace) :
  run fuel = Some (Ok tr) ->
  Rows.every_sample
    (fun _ t q dq _ u _ =>
       exists pol u0 pol',
         ufunc pol t q dq = Ok (u0, pol')
         /\ u = Spec.clamp self u0
         /\ (Spec.above_umin self u0 -> Spec.below_umax self u0 -> u = u0)) tr.
Proof.
  intros H.
  destruct (run_invariant_trace self q0 dq0 ufunc pol0 dt T fuel tr H)
    as (st & <- & (n & _ & _ & Hrec & _) & _).
  apply (every_sample_weaken (Rows.recorded self ufunc dt T)); [| exact Hrec].
  intros i t q dq ddq u x (_ & _ & _ & _ & pol & u0 & pol' & Hu & ->).
  exists pol, u0, pol'. split; [exact Hu | split; [reflexivity |]].
  apply clamp_in_bounds.
Qed.


(** X11: A horizon that is not positive ends the call before the first
    iteration: the empty trace is returned, for any fuel, without a query
    to the policy and without a division. *)
Theorem simulate_no_horizon (fuel : nat) :
  T <= 0 -> run fuel = Some (Ok empty_trace).
Proof.
  intros HT. unfold simulate. rewrite loop_exit; [reflexivity |]. simpl. lra.
Qed.

(** X12: A call can only raise what the policy raised at some query, or
    ZeroDivisionError from a model with [L * m = 0]; and it raises only
    with a positive horizon. *)
Theorem simulate_failure_sources (fuel : nat) (e : exn) :
  run fuel = Some (Raise e) ->
  0 < T
  /\ ((exists pol t q dq, ufunc pol t q dq = Raise e)
      \/ (e = ZeroDivisionError /\ L self * m self = 0)).
Proof.
  intros H. split.
  - destruct (Rlt_dec 0 T) as [HT | HT]; [exact HT |].
    unfold simulate in H. rewrite loop_exit in H by (simpl; lra). discriminate.
  - revert H. unfold simulate.
    destruct (loop self ufunc dt T fuel (Frame 0 q0 dq0 empty_trace pol0))
      as [[st | e'] |] eqn:Hl; try discriminate.
    intros [= ->]. exact (loop_raise_inversion self ufunc dt T fuel _ e Hl).
Qed.

(** X13: What the policy raises at its first query is raised by the call. *)
Theorem simulate_policy_failure (fuel : nat) (e : exn) :
  0 < T ->
  ufunc pol0 0 q0 dq0 = Raise e ->
  run (S fuel) = Some (Raise e).
Proof.
  intros HT Hu. unfold simulate.
  rewrite (loop_raise self ufunc dt T fuel _ e); [reflexivity | exact HT |].
  now apply body_policy_raises.
Qed.

End TraceProperties.

(** ** The example runs *)

Lemma demo_run (self : Pendulum.t) (c : R) :
  L self * m self <> 0 ->
  simulate self 0 0 (pure_policy (fun _ _ _ => c)) tt 1 1 1
  = Some (Ok (Demo.one_sample self c)).
Proof.
  intros H. apply (simulate_single_step self 0 0 c 1 1 0 H). lra.
Qed.

Lemma demo_failing_run :
  simulate default 0 0 Demo.failing tt 1 1 1 = Some (Raise (PolicyError 7)).
Proof.
  unfold simulate.
  rewrite (loop_raise default Demo.failing 1 1 0 _ (PolicyError 7));
    [reflexivity | simpl; lra | reflexivity].
Qed.

Lemma default_divides : L default * m default <> 0.
Proof. simpl. lra. Qed.

Lemma crossed_divides : L Demo.crossed * m Demo.crossed <> 0.
Proof. simpl. lra. Qed.

Lemma simulate_trace_rectangular_witness :
  simulate default 0 0 Demo.zero tt 1 1 1 = Some (Ok (Demo.one_sample default 0))
  /\ exists n : nat,
       Spec.samples n (Demo.one_sample default 0)
       /\ Rows.every_sample (fun _ _ q dq _ _ x => x = [q; dq])
            (Demo.one_sample default 0).
Proof.
  split; [exact (demo_run default 0 default_divides) |].
  exact (simulate_trace_rectangular default 0 0 Demo.zero tt 1 1 1 _
           (demo_run default 0 default_divides)).
Defined.

Lemma simulate_clock_witness :
  simulate default 0 (-1) Demo.zero tt 1 2 2
  = Some (Ok (Demo.two_samples default 0 (-1) 0 1))
  /\ tr_t (Demo.two_samples default 0 (-1) 0 1) = [0; 0 + 1]
  /\ Forall (fun t => t < 2) (tr_t (Demo.two_samples default 0 (-1) 0 1))
  /\ (forall i t t',
        nth_error (tr_t (Demo.two_samples default 0 (-1) 0 1)) i = Some t ->
        nth_error (tr_t (Demo.two_samples default 0 (-1) 0 1)) (S i) = Some t' ->
        t' = t + 1).
Proof.
  assert (H : simulate default 0 (-1) Demo.zero tt 1 2 2
              = Some (Ok (Demo.two_samples default 0 (-1) 0 1))).
  { apply (simulate_two_steps default 0 (-1) 0 1 2 0); simpl; lra. }
  split; [exact H | split; [reflexivity |]].
  destruct (simulate_clock default 0 (-1) Demo.zero tt 1 2 2 _ H)
    as (Hlt & _ & Hstep & _).
  split; [exact Hlt | exact Hstep].
Defined.

Lemma simulate_samples_obey_dynamics_witness :
  simulate default 0 0 Demo.zero tt 1 1 1 = Some (Ok (Demo.one_sample default 0))
  /\ Rows.every_sample
       (fun _ _ q dq ddq u x =>
          dynamics default q dq u = Ok ddq
          /\ derivative default x (Scalar u) = Ok [dq; ddq])
       (Demo.one_sample default 0).
Proof.
  split; [exact (demo_run default 0 default_divides) |].
  exact (simulate_samples_obey_dynamics default 0 0 Demo.zero tt 1 1 1 _
           (demo_run default 0 default_divides)).
Defined.

Lemma simulate_euler_chain_witness :
  simulate default 0 (-1) Demo.zero tt 1 2 2
  = Some (Ok (Demo.two_samples default 0 (-1) 0 1))
  /\ nth_error (tr_q (Demo.two_samples default 0 (-1) 0 1)) 0 = Some 0
  /\ nth_error (tr_dq (Demo.two_samples default 0 (-1) 0 1)) 0 = Some (-1)
  /\ nth_error (tr_ddq (Demo.two_samples default 0 (-1) 0 1)) 0
     = Some (Spec.forward default 0 (-1) 0)
  /\ nth_error (tr_q (Demo.two_samples default 0 (-1) 0 1)) 1
     = Some (2 * PI - 1)
  /\ (forall q', nth_error (tr_q (Demo.two_samples default 0 (-1) 0 1)) 1
                 = Some q' -> q' = py_mod (0 + 1 * -1) (PI * 2))
  /\ (forall dq', nth_error (tr_dq (Demo.two_samples default 0 (-1) 0 1)) 1
                  = Some dq' -> dq' = -1 + 1 * Spec.forward default 0 (-1) 0).
Proof.
  assert (H : simulate default 0 (-1) Demo.zero tt 1 2 2
              = Some (Ok (Demo.two_samples default 0 (-1) 0 1))).
  { apply (simulate_two_steps default 0 (-1) 0 1 2 0); simpl; lra. }
  split; [exact H |].
  split; [reflexivity | split; [reflexivity | split; [reflexivity |]]].
  split; [simpl; now rewrite wrap_minus_one |].
  destruct (simulate_euler_chain default 0 (-1) Demo.zero tt 1 2 2 _ H)
    as (Hchain & _).
  exact (Hchain O 0 (-1) (Spec.forward default 0 (-1) 0)
           eq_refl eq_refl eq_refl).
Defined.

Lemma simulate_controls_from_policy_witness :
  simulate default 0 0 Demo.five tt 1 1 1 = Some (Ok (Demo.one_sample default 5))
  /\ Rows.every_sample
       (fun _ t q dq _ u _ =>
          exists pol u0 pol',
            Demo.five pol t q dq = Ok (u0, pol')
            /\ u = Spec.clamp default u0
            /\ (Spec.above_umin default u0 -> Spec.below_umax default u0
                -> u = u0))
       (Demo.one_sample default 5).
Proof.
  split; [exact (demo_run default 5 default_divides) |].
  exact (simulate_controls_from_policy default 0 0 Demo.five tt 1 1 1 _
           (demo_run default 5 default_divides)).
Defined.


Lemma simulate_no_horizon_witness :
  0 <= 0
  /\ simulate Demo.massless 0 0 Demo.failing tt 1 0 0 = Some (Ok empty_trace).
Proof.
  assert (H : 0 <= 0) by lra.
  split; [exact H |].
  exact (simulate_no_horizon Demo.massless 0 0 Demo.failing tt 1 0 0 H).
Defined.

Lemma simulate_failure_sources_witness :
  simulate default 0 0 Demo.failing tt 1 1 1 = Some (Raise (PolicyError 7))
  /\ 0 < 1
  /\ ((exists pol t q dq, Demo.failing pol t q dq = Raise (PolicyError 7))
      \/ (PolicyError 7 = ZeroDivisionError /\ L default * m default = 0)).
Proof.
  split; [exact demo_failing_run |].
  exact (simulate_failure_sources default 0 0 Demo.failing tt 1 1 1 _
           demo_failing_run).
Defined.

Lemma simulate_policy_failure_witness :
  0 < 1
  /\ Demo.failing tt 0 0 0 = Raise (PolicyError 7)
  /\ simulate default 0 0 Demo.failing tt 1 1 1 = Some (Raise (PolicyError 7)).
Proof.
  assert (H : 0 < 1) by lra.
  split; [exact H | split; [reflexivity |]].
  exact (simulate_policy_failure default 0 0 Demo.failing tt 1 1 0 _ H eq_refl).
Defined.

Lemma simulate_returns_witness :
  0 < 1
  /\ L default * m default <> 0
  /\ Spec.answers Demo.zero
  /\ exists (n : nat) (tr : trace),
       forall fuel,
         simulate default 0 0 Demo.zero tt 1 1 (n + fuel) = Some (Ok tr).
Proof.
  assert (H : 0 < 1) by lra.
  split; [exact H | split; [exact default_divides |]].
  split; [exact (constant_policy_answers 0) |].
  exact (simulate_returns default 0 0 Demo.zero tt 1 1 H default_divides
           (constant_policy_answers 0)).
Defined.

Lemma simulate_zero_division_witness :
  0 < 1
  /\ L Demo.massless * m Demo.massless = 0
  /\ Spec.answers Demo.zero
  /\ simulate Demo.massless 0 0 Demo.zero tt 1 1 1
     = Some (Raise ZeroDivisionError).
Proof.
  assert (H : 0 < 1) by lra.
  assert (Hz : L Demo.massless * m Demo.massless = 0) by (simpl; lra).
  split; [exact H | split; [exact Hz |]].
  split; [exact (constant_policy_answers 0) |].
  exact (simulate_zero_division Demo.massless 0 0 Demo.zero tt 1 1 0 H Hz
           (constant_policy_answers 0)).
Defined.

Lemma queries_match_samples_witness :
  loop default (fun n _ _ _ => Ok (0, S n)) 1 1 1 (Frame 0 0 0 empty_trace 0%nat)
  = Some (Ok (Spec.euler_step default 1 (Frame 0 0 0 empty_trace 0%nat) 0
                (Spec.forward default 0 0 0) 1%nat))
  /\ 1%nat = length (tr_u (Spec.record_sample 0 0 0 (Spec.forward default 0 0 0)
                           0 empty_trace)).
Proof.
  assert (H : loop default (fun n _ _ _ => Ok (0, S n)) 1 1 1
                (Frame 0 0 0 empty_trace 0%nat)
              = Some (Ok (Spec.euler_step default 1
                            (Frame 0 0 0 empty_trace 0%nat) 0
                            (Spec.forward default 0 0 0) 1%nat))).
  { rewrite (loop_iter default _ 1 1 0 (Frame 0 0 0 empty_trace 0%nat)
               (Spec.euler_step default 1 (Frame 0 0 0 empty_trace 0%nat) 0
                  (Spec.forward default 0 0 0) 1%nat)).
    - apply loop_exit. simpl. lra.
    - simpl. lra.
    - apply body_step; [reflexivity |].
      apply dynamics_nonzero, default_divides. }
  split; [exact H |].
  exact (queries_match_samples default (fun _ _ _ => 0) 1 1 1 _ _ H eq_refl).
Defined.

(** X22: A model fresh from the constructor has no viscosity and no bounds: in
    its traces every control is the policy's own answer, and every
    acceleration is [(u - m cos(q) g) / (L m)]. *)
Theorem simulate_fresh_model {Pol : Type} (m L g q0 dq0 : R)
    (ufunc : policy Pol) (pol0 : Pol) (dt T : R) (fuel : nat) (tr : trace) :
  simulate (init m L g) q0 dq0 ufunc pol0 dt T fuel = Some (Ok tr) ->
  Rows.every_sample
    (fun _ t q dq ddq u _ =>
       (exists pol pol', ufunc pol t q dq = Ok (u, pol'))
       /\ L * m <> 0
       /\ ddq = (u - m * cos q * g) / (L * m)) tr.
Proof.
  intros H.
  destruct (run_invariant_trace (init m L g) q0 dq0 ufunc pol0 dt T fuel tr H)
    as (st & <- & (n & _ & _ & Hrec & _) & _).
  apply (every_sample_weaken (Rows.recorded (init m L g) ufunc dt T));
    [| exact Hrec].
  intros i t q dq ddq u x (_ & _ & _ & Hd & pol & u0 & pol' & Hu & ->).
  simpl in *. split; [now exists pol, pol' |].
  rewrite dynamics_unfold in Hd. unfold py_div in Hd. simpl in Hd.
  destruct (Req_dec_T (L * m) 0) as [E | Hnz]; [discriminate |].
  injection Hd as <-. split; [exact Hnz |].
  unfold Spec.visc. simpl. f_equal. ring.
Qed.

Lemma simulate_fresh_model_witness :
  simulate (init 1 1 (98 / 10)) 0 0 Demo.five tt 1 1 1
  = Some (Ok (Demo.one_sample default 5))
  /\ Rows.every_sample
       (fun _ t q dq ddq u _ =>
          (exists pol pol', Demo.five pol t q dq = Ok (u, pol'))
          /\ 1 * 1 <> 0
          /\ ddq = (u - 1 * cos q * (98 / 10)) / (1 * 1))
       (Demo.one_sample default 5).
Proof.
  split; [exact (demo_run default 5 default_divides) |].
  exact (simulate_fresh_model 1 1 (98 / 10) 0 0 Demo.five tt 1 1 1 _
           (demo_run default 5 default_divides)).
Defined.

(** ** The clamp on doubles *)



















